(** * gen_secrets.py: provisioning of the JWT signing key pairs

    A shallow embedding of [gen_secrets.py] (the root locator
    [find_project_root], the per-location provisioner [generate_keys] and
    the orchestration and final verification in [main]) together with the
    properties of the workflow.

    The script talks to two things outside itself: the filesystem (through
    [pathlib]) and the [openssl] executable (through [subprocess.run]).
    The filesystem is a tree of directories and regular files; [openssl]
    is an arbitrary function of its command line, of the filesystem and of
    a hidden state of its own, so that every theorem of the development
    holds for every behaviour of the tool.  Access rights, symbolic links
    and the failure of [print] itself are outside the model: every path
    can be examined, and a directory can be created unless a regular file
    stands in its way.

    The file has three parts: the embedding of the script, the general
    properties, and the properties on concrete runs with stand-ins for
    the tool. *)

From Stdlib Require Import List String Ascii ZArith Lia Bool Arith.
From Stdlib Require Import Strings.Byte.
Import ListNotations.

Set Warnings "-register-all".

Local Open Scope string_scope.
Local Open Scope list_scope.

(** ** Exceptions

    The Python exceptions that the filesystem calls and [subprocess.run]
    can raise in this script. *)

Inductive exn :=
| CalledProcessError (returncode : Z) (cmd : list string) (stderr : list byte)
| FileNotFoundError
| FileExistsError
| NotADirectoryError
| PermissionError
| UnicodeDecodeError.

(** ** Paths

    An absolute POSIX path is the list of its components below ["/"];
    the filesystem root is [[]].  This is what [Path(...).resolve()]
    yields: no [.], no [..], no repeated slash. *)

Module Path.

Definition path := list string.

Definition eq_dec : forall p q : path, {p = q} + {p <> q} :=
  list_eq_dec string_dec.

(** [p.parent]; the parent of the root is the root. *)
Definition parent (p : path) : path := removelast p.

(** Splitting of a string at ["/"]; [cur] is the component being read. *)
Fixpoint split_slash (s cur : string) : list string :=
  match s with
  | EmptyString => [cur]
  | String c s' =>
      if Ascii.eqb c "/"%char then cur :: split_slash s' ""
      else split_slash s' (cur ++ String c "")%string
  end.

(** pathlib drops empty components and ["."] when it parses a string. *)
Definition keep_part (c : string) : bool :=
  negb (String.eqb c "") && negb (String.eqb c ".").

Definition parts (s : string) : list string :=
  filter keep_part (split_slash s "").

Definition is_absolute (s : string) : bool :=
  match s with
  | String c _ => Ascii.eqb c "/"%char
  | EmptyString => false
  end.

(** [p / s]: an absolute right operand replaces the left one. *)
Definition joinpath (p : path) (s : string) : path :=
  if is_absolute s then parts s else p ++ parts s.

(** [str(p)] *)
Definition str (p : path) : string :=
  match p with
  | [] => "/"
  | _ => String.concat "" (map (fun c => ("/" ++ c)%string) p)
  end.

End Path.

Abbreviation path := Path.path.
Infix "//" := Path.joinpath (at level 40, left associativity).

(** ** The filesystem *)

Module FS.

Inductive node :=
| File (content : list byte)
| Dir (entries : list (string * node)).

Fixpoint assoc (name : string) (es : list (string * node)) : option node :=
  match es with
  | [] => None
  | (k, n) :: es' => if String.eqb k name then Some n else assoc name es'
  end.

Fixpoint set_entry (name : string) (n : node) (es : list (string * node))
  : list (string * node) :=
  match es with
  | [] => [(name, n)]
  | (k, m) :: es' =>
      if String.eqb k name then (k, n) :: es'
      else (k, m) :: set_entry name n es'
  end.

(** Resolution of a path from the root of the tree. *)
Fixpoint lookup (p : path) (t : node) : option node :=
  match p with
  | [] => Some t
  | c :: p' =>
      match t with
      | File _ => None
      | Dir es =>
          match assoc c es with
          | Some m => lookup p' m
          | None => None
          end
      end
  end.

(** [Path.exists()]: true for a file and for a directory. *)
Definition exists_ (p : path) (t : node) : bool :=
  match lookup p t with
  | Some _ => true
  | None => false
  end.

Definition is_dir (p : path) (t : node) : bool :=
  match lookup p t with
  | Some (Dir _) => true
  | _ => false
  end.

(** The chain of new empty directories [c1/c2/.../cn]. *)
Fixpoint fresh_dirs (p : path) : node :=
  match p with
  | [] => Dir []
  | c :: p' => Dir [(c, fresh_dirs p')]
  end.

(** [Path.mkdir(parents=True, exist_ok=True)]: the missing directories
    of the path are created; a directory that is already there is left
    alone; a regular file at the path raises [FileExistsError] and a
    regular file at a proper ancestor raises [NotADirectoryError]. *)
Fixpoint mkdir_p (p : path) (t : node) : node + exn :=
  match p, t with
  | [], Dir _ => inl t
  | [], File _ => inr FileExistsError
  | _ :: _, File _ => inr NotADirectoryError
  | c :: p', Dir es =>
      match assoc c es with
      | None => inl (Dir (es ++ [(c, fresh_dirs p')]))
      | Some m =>
          match mkdir_p p' m with
          | inl m' => inl (Dir (set_entry c m' es))
          | inr e => inr e
          end
      end
  end.

(** No regular file stands on the way down [p]: what [mkdir_p] needs. *)
Fixpoint unblocked (p : path) (t : node) : bool :=
  match p, t with
  | _, File _ => false
  | [], Dir _ => true
  | c :: p', Dir es =>
      match assoc c es with
      | None => true
      | Some m => unblocked p' m
      end
  end.

(** Writing a regular file into an existing directory (used by the
    stand-ins for [openssl] below, never by the script itself). *)
Fixpoint write_file (p : path) (content : list byte) (t : node) : option node :=
  match p, t with
  | [], _ => None
  | _, File _ => None
  | [c], Dir es =>
      match assoc c es with
      | Some (Dir _) => None
      | _ => Some (Dir (set_entry c (File content) es))
      end
  | c :: p', Dir es =>
      match assoc c es with
      | Some m =>
          match write_file p' content m with
          | Some m' => Some (Dir (set_entry c m' es))
          | None => None
          end
      | None => None
      end
  end.

End FS.

Abbreviation node := FS.node.

(** ** What the script prints, and what it does

    One constructor per [print] call of the source; the trace of a run is
    the sequence of its prints, directory creations and process
    invocations, in program order. *)

Inductive line :=
| LBanner                                   (* JWT Key Generator for Thunder Engine *)
| LRule                                     (* "=" * 40 *)
| LProjectRoot (project_root : path)        (* Project root: ... *)
| LBlank                                    (* print() *)
| LProcessing (location : string)           (* Processing: ... *)
| LKeysExist (output_dir : path)            (* Keys already exist in ... *)
| LGenPrivate (private_key_path : path)     (* Generating private key: ... *)
| LGenPublic (public_key_path : path)       (* Generating public key: ... *)
| LKeysGenerated (output_dir : path)        (* Keys generated successfully in ... *)
| LErrFailed (returncode : Z) (cmd : list string)  (* ERROR: Failed to generate keys: ... *)
| LStderr (text : string)                   (* the decoded stderr of the tool *)
| LErrNoOpenssl                             (* ERROR: 'openssl' command not found... *)
| LSummaryGenerated (success_count : nat)   (* Generated keys in n location(s) *)
| LSummaryNone                              (* No new keys generated ... *)
| LWarnMissing (location : string)          (* WARNING: Missing keys in ... *)
| LAllValid                                 (* All key locations have valid keys. *)
| LSomeMissing.                             (* Some key locations are missing keys! *)

Inductive event :=
| EPrint (l : line)
| EMkdir (p : path)
| ERun (args : list string).

(** ** Constants of the script *)

Definition KEY_LOCATIONS : list string :=
  [ "thunder/engine/provider/src/main/resources";
    "thunder/engine/provider/src/test/resources" ].

Definition PRIVATE_KEY_NAME : string := "privateKey.pem".
Definition PUBLIC_KEY_NAME : string := "publicKey.pem".

(** The two command lines given to [subprocess.run]. *)
Definition genpkey_cmd (private_key_path : path) : list string :=
  [ "openssl"; "genpkey";
    "-algorithm"; "RSA";
    "-out"; Path.str private_key_path;
    "-pkeyopt"; "rsa_keygen_bits:2048" ].

Definition pubout_cmd (private_key_path public_key_path : path) : list string :=
  [ "openssl"; "rsa";
    "-pubout";
    "-in"; Path.str private_key_path;
    "-out"; Path.str public_key_path ].

(** ** The root locator

    [walk_up fuel t current] is the [while] loop of [find_project_root]
    run for at most [fuel] iterations; [None] means that the iterations
    were used up before the loop ended. *)

Inductive walk :=
| Found (project_root : path)     (* the [return current] inside the loop *)
| Exhausted.                      (* the loop condition became false *)

Fixpoint walk_up (fuel : nat) (t : node) (current : path) : option walk :=
  if Path.eq_dec current (Path.parent current) then Some Exhausted
  else
    match fuel with
    | O => None
    | S fuel' =>
        if FS.exists_ (current // "pom.xml") t then Some (Found current)
        else walk_up fuel' t (Path.parent current)
    end.

(** [script_dir] is [Path(__file__).resolve().parent].  The loop needs at
    most one iteration per component of the path ([walk_up_spec] below),
    so the last branch is never taken. *)
Definition find_project_root (t : node) (script_dir : path) : path :=
  match walk_up (List.length script_dir) t script_dir with
  | Some (Found project_root) => project_root
  | Some Exhausted => script_dir
  | None => script_dir
  end.

(** The directories that the loop tests: the start and its ancestors, the
    filesystem root excluded. *)
Definition on_walk (d script_dir : path) : Prop :=
  d <> [] /\ exists q, script_dir = d ++ q.

(** ** A state and exception monad

    A computation reads and writes a state and either returns a value or
    raises a Python exception; the state reached when the exception was
    raised is kept, since nothing is rolled back. *)

Inductive result (A : Type) :=
| Ok (a : A)
| Raise (x : exn).

Arguments Ok {A} a.
Arguments Raise {A} x.

Definition M (S A : Type) : Type := S -> result A * S.

Definition ret {S A} (a : A) : M S A := fun st => (Ok a, st).

Definition raise {S A} (x : exn) : M S A := fun st => (Raise x, st).

Definition bind {S A B} (c : M S A) (k : A -> M S B) : M S B :=
  fun st =>
    match c st with
    | (Ok a, st') => k a st'
    | (Raise x, st') => (Raise x, st')
    end.

(** [try: c  except ...: handler]: [handler x] is [Some h] when one of the
    [except] clauses matches [x], and then [h] runs in the state left by
    [c]; an exception raised by [h] itself is not caught. *)
Definition try_except {S A} (c : M S A) (handler : exn -> option (M S A)) : M S A :=
  fun st =>
    match c st with
    | (Ok a, st') => (Ok a, st')
    | (Raise x, st') =>
        match handler x with
        | Some h => h st'
        | None => (Raise x, st')
        end
    end.

Declare Scope monad_scope.
Delimit Scope monad_scope with monad.
Notation "x <- c ;; k" := (bind c (fun x => k))
  (at level 61, c at next level, right associativity) : monad_scope.
Notation "c ;; k" := (bind c (fun _ => k))
  (at level 61, right associativity) : monad_scope.
Local Open Scope monad_scope.

(** ** The workflow *)

Section Workflow.

(** The hidden state of the external tool (whether it is installed, a
    call counter, a random seed, ...). *)
Variable E : Type.

(** What spawning a process did: it ran and exited with a return code and
    some bytes on its standard error, or it could not be run at all
    ([FileNotFoundError] when the executable is not on the search path).
    In both cases the filesystem and the hidden state may have changed. *)
Inductive spawned :=
| Exited (returncode : Z) (stderr : list byte) (e : E) (t : node)
| NotSpawned (x : exn) (e : E) (t : node).

(** The external tool. *)
Variable openssl : list string -> E -> node -> spawned.

(** [bytes.decode()]: [None] is a [UnicodeDecodeError]. *)
Variable bytes_decode : list byte -> option string.

Record state := mkState {
  st_fs : node;
  st_env : E;
  st_trace : list event
}.

(** The hidden state of the tool together with the filesystem, and the
    state [st] after more events and in a new world. *)
Definition world (st : state) : E * node := (st_env st, st_fs st).

Definition after (evs : list event) (w : E * node) (st : state) : state :=
  mkState (snd w) (fst w) (st_trace st ++ evs).

Definition print (l : line) : M state unit :=
  fun st => (Ok tt, after [EPrint l] (world st) st).

(** [Path.exists()], on a filesystem where every path can be examined:
    the [OSError]s that [Path.exists()] lets through (a directory that
    may not be searched, a name that is too long) are outside the
    filesystem modelled here. *)
Definition path_exists (p : path) : M state bool :=
  fun st => (Ok (FS.exists_ p (st_fs st)), st).

Definition mkdir (p : path) : M state unit :=
  fun st =>
    match FS.mkdir_p p (st_fs st) with
    | inl t => (Ok tt, after [EMkdir p] (st_env st, t) st)
    | inr x => (Raise x, after [EMkdir p] (world st) st)
    end.

(** What [check=True] makes of the end of the process: an exit status
    other than 0 is a [CalledProcessError] that carries the status, the
    command line and the captured standard error. *)
Definition raised (args : list string) (r : spawned) : option exn :=
  match r with
  | Exited returncode stderr _ _ =>
      if (returncode =? 0)%Z then None
      else Some (CalledProcessError returncode args stderr)
  | NotSpawned x _ _ => Some x
  end.

Definition world_after (r : spawned) : E * node :=
  match r with
  | Exited _ _ e t => (e, t)
  | NotSpawned _ e t => (e, t)
  end.

(** [subprocess.run(args, check=True, capture_output=True)] *)
Definition subprocess_run (args : list string) : M state unit :=
  fun st =>
    let r := openssl args (st_env st) (st_fs st) in
    (match raised args r with
     | None => Ok tt
     | Some x => Raise x
     end,
     after [ERun args] (world_after r) st).

Definition decode (b : list byte) : M state string :=
  match bytes_decode b with
  | Some text => ret text
  | None => raise UnicodeDecodeError
  end.

(** The two [except] clauses of [generate_keys]. *)
Definition generate_keys_except (x : exn) : option (M state bool) :=
  match x with
  | CalledProcessError returncode cmd stderr =>
      Some (print (LErrFailed returncode cmd) ;;
            match stderr with
            | [] => ret tt
            | _ :: _ => text <- decode stderr ;; print (LStderr text)
            end ;;
            ret false)
  | FileNotFoundError =>
      Some (print LErrNoOpenssl ;;
            ret false)
  | _ => None
  end.

Definition generate_keys (output_dir : path) (force : bool) : M state bool :=
  let private_key_path := output_dir // PRIVATE_KEY_NAME in
  let public_key_path := output_dir // PUBLIC_KEY_NAME in
  private_exists <- path_exists private_key_path ;;
  public_exists <- path_exists public_key_path ;;
  if private_exists && public_exists && negb force then
    print (LKeysExist output_dir) ;;
    ret false
  else
    mkdir output_dir ;;
    try_except
      (print (LGenPrivate private_key_path) ;;
       subprocess_run (genpkey_cmd private_key_path) ;;
       print (LGenPublic public_key_path) ;;
       subprocess_run (pubout_cmd private_key_path public_key_path) ;;
       print (LKeysGenerated output_dir) ;;
       ret true)
      generate_keys_except.

(** The first [for] loop of [main]. *)
Fixpoint provision (project_root : path) (force : bool)
  (locations : list string) (success_count : nat) : M state nat :=
  match locations with
  | [] => ret success_count
  | location :: rest =>
      let key_dir := project_root // location in
      print (LProcessing location) ;;
      generated <- generate_keys key_dir force ;;
      print LBlank ;;
      provision project_root force rest
        (if generated : bool then S success_count else success_count)
  end.

(** The second [for] loop of [main]. *)
Fixpoint verify (project_root : path) (locations : list string)
  (all_present : bool) : M state bool :=
  match locations with
  | [] => ret all_present
  | location :: rest =>
      let key_dir := project_root // location in
      let private_key := key_dir // PRIVATE_KEY_NAME in
      let public_key := key_dir // PUBLIC_KEY_NAME in
      private_exists <- path_exists private_key ;;
      public_exists <- path_exists public_key ;;
      if negb (private_exists && public_exists) then
        print (LWarnMissing location) ;;
        verify project_root rest false
      else
        verify project_root rest all_present
  end.

(** [argv] is [sys.argv]; [script_dir] is [Path(__file__).resolve().parent]. *)
Definition main (argv : list string) (script_dir : path) : M state Z :=
  let force := existsb (String.eqb "--force") argv in
  print LBanner ;;
  print LRule ;;
  project_root <- (fun st => (Ok (find_project_root (st_fs st) script_dir), st)) ;;
  print (LProjectRoot project_root) ;;
  print LBlank ;;
  success_count <- provision project_root force KEY_LOCATIONS 0 ;;
  print LRule ;;
  (if (0 <? success_count)%nat then print (LSummaryGenerated success_count)
   else print LSummaryNone) ;;
  all_present <- verify project_root KEY_LOCATIONS true ;;
  if all_present : bool then
    print LAllValid ;;
    ret 0%Z
  else
    print LSomeMissing ;;
    ret 1%Z.

(** ** Provisioning outcomes

    The script has no outcome type: [generate_keys] returns a boolean and
    tells the operator what happened.  [ProvisioningOutcome] names the
    three things it can tell, and [report] reads them back from the
    printed lines: the location after each "Processing:" header, and the
    outcome from the line that closes the attempt. *)

Inductive ProvisioningOutcome :=
| Skipped
| Generated
| Failed.

Definition is_generated (o : ProvisioningOutcome) : bool :=
  match o with
  | Generated => true
  | _ => false
  end.

Inductive entry :=
| Header (location : string)
| Outcome (o : ProvisioningOutcome).

Definition entry_of (ev : event) : list entry :=
  match ev with
  | EPrint (LProcessing location) => [Header location]
  | EPrint (LKeysExist _) => [Outcome Skipped]
  | EPrint (LKeysGenerated _) => [Outcome Generated]
  | EPrint (LErrFailed _ _) => [Outcome Failed]
  | EPrint LErrNoOpenssl => [Outcome Failed]
  | _ => []
  end.

Fixpoint pair_up (es : list entry) : list (string * ProvisioningOutcome) :=
  match es with
  | Header location :: ((Outcome o :: rest) as tl) => (location, o) :: pair_up rest
  | _ :: tl => pair_up tl
  | [] => []
  end.

Definition report (tr : list event) : list (string * ProvisioningOutcome) :=
  pair_up (flat_map entry_of tr).

(** The exceptions that the two [except] clauses of [generate_keys] turn
    into the return value [False]. *)
Definition recovered (x : exn) : Prop :=
  match x with
  | CalledProcessError _ _ stderr => stderr = [] \/ bytes_decode stderr <> None
  | FileNotFoundError => True
  | _ => False
  end.

(** One attempt at a location, told from the side of the filesystem and
    of the tool: [attempt output_dir force w o w'] when the attempt,
    started with hidden state and filesystem [w], has outcome [o] and
    leaves [w']. *)
Inductive attempt (output_dir : path) (force : bool)
  : E * node -> ProvisioningOutcome -> E * node -> Prop :=
| attempt_skipped e t :
    FS.exists_ (output_dir // PRIVATE_KEY_NAME) t = true ->
    FS.exists_ (output_dir // PUBLIC_KEY_NAME) t = true ->
    force = false ->
    attempt output_dir force (e, t) Skipped (e, t)
| attempt_failed_private e t t1 x :
    FS.exists_ (output_dir // PRIVATE_KEY_NAME) t
      && FS.exists_ (output_dir // PUBLIC_KEY_NAME) t && negb force = false ->
    FS.mkdir_p output_dir t = inl t1 ->
    let private := openssl (genpkey_cmd (output_dir // PRIVATE_KEY_NAME)) e t1 in
    raised (genpkey_cmd (output_dir // PRIVATE_KEY_NAME)) private = Some x ->
    recovered x ->
    attempt output_dir force (e, t) Failed (world_after private)
| attempt_failed_public e t t1 x :
    FS.exists_ (output_dir // PRIVATE_KEY_NAME) t
      && FS.exists_ (output_dir // PUBLIC_KEY_NAME) t && negb force = false ->
    FS.mkdir_p output_dir t = inl t1 ->
    let private := openssl (genpkey_cmd (output_dir // PRIVATE_KEY_NAME)) e t1 in
    raised (genpkey_cmd (output_dir // PRIVATE_KEY_NAME)) private = None ->
    let public :=
      openssl (pubout_cmd (output_dir // PRIVATE_KEY_NAME) (output_dir // PUBLIC_KEY_NAME))
        (fst (world_after private)) (snd (world_after private)) in
    raised (pubout_cmd (output_dir // PRIVATE_KEY_NAME) (output_dir // PUBLIC_KEY_NAME))
      public = Some x ->
    recovered x ->
    attempt output_dir force (e, t) Failed (world_after public)
| attempt_generated e t t1 :
    FS.exists_ (output_dir // PRIVATE_KEY_NAME) t
      && FS.exists_ (output_dir // PUBLIC_KEY_NAME) t && negb force = false ->
    FS.mkdir_p output_dir t = inl t1 ->
    let private := openssl (genpkey_cmd (output_dir // PRIVATE_KEY_NAME)) e t1 in
    raised (genpkey_cmd (output_dir // PRIVATE_KEY_NAME)) private = None ->
    let public :=
      openssl (pubout_cmd (output_dir // PRIVATE_KEY_NAME) (output_dir // PUBLIC_KEY_NAME))
        (fst (world_after private)) (snd (world_after private)) in
    raised (pubout_cmd (output_dir // PRIVATE_KEY_NAME) (output_dir // PUBLIC_KEY_NAME))
      public = None ->
    attempt output_dir force (e, t) Generated (world_after public).

(** The outcomes of the locations of a list, attempted one after the
    other. *)
Inductive attempts (project_root : path) (force : bool)
  : list string -> E * node -> list ProvisioningOutcome -> E * node -> Prop :=
| attempts_nil w :
    attempts project_root force [] w [] w
| attempts_cons location rest w o w1 os w2 :
    attempt (project_root // location) force w o w1 ->
    attempts project_root force rest w1 os w2 ->
    attempts project_root force (location :: rest) w (o :: os) w2.

(** The lines that depend on the counter and on the re-check, and the
    value returned by [main]. *)
Definition summary (success_count : nat) : line :=
  if (0 <? success_count)%nat then LSummaryGenerated success_count else LSummaryNone.

Definition verdict (all_present : bool) : line :=
  if all_present then LAllValid else LSomeMissing.

Definition exit_code (all_present : bool) : Z :=
  if all_present then 0%Z else 1%Z.

(** The final re-check as a function of the filesystem alone. *)
Definition both_present (project_root : path) (t : node) (location : string) : bool :=
  FS.exists_ (project_root // location // PRIVATE_KEY_NAME) t
    && FS.exists_ (project_root // location // PUBLIC_KEY_NAME) t.

Definition missing (project_root : path) (t : node) (locations : list string)
  : list string :=
  filter (fun location => negb (both_present project_root t location)) locations.

Definition warnings (project_root : path) (t : node) (locations : list string)
  : list event :=
  map (fun location => EPrint (LWarnMissing location))
    (missing project_root t locations).

(** Everything that a run prints when it skips every location. *)
Definition skipped_run (project_root : path) : list event :=
  [EPrint LBanner; EPrint LRule; EPrint (LProjectRoot project_root); EPrint LBlank]
    ++ flat_map (fun location =>
                   [EPrint (LProcessing location);
                    EPrint (LKeysExist (project_root // location));
                    EPrint LBlank]) KEY_LOCATIONS
    ++ [EPrint LRule; EPrint LSummaryNone; EPrint LAllValid].

(** Every key directory can be created: no regular file stands where
    [mkdir] has to find or make a directory. *)
Definition creatable (project_root : path) (t : node) : Prop :=
  forall location, In location KEY_LOCATIONS ->
    exists t', FS.mkdir_p (project_root // location) t = inl t'.

End Workflow.

Arguments Exited {E} returncode stderr e t.
Arguments NotSpawned {E} x e t.
Arguments mkState {E} st_fs st_env st_trace.
Arguments st_fs {E} s.
Arguments st_env {E} s.
Arguments st_trace {E} s.
Arguments world {E} st.
Arguments after {E} evs w st.
Arguments generate_keys {E} openssl bytes_decode output_dir force.
Arguments provision {E} openssl bytes_decode project_root force locations success_count.
Arguments verify {E} project_root locations all_present.
Arguments main {E} openssl bytes_decode argv script_dir.
Arguments raised {E} args r.
Arguments world_after {E} r.
Arguments attempt {E} openssl bytes_decode output_dir force.
Arguments attempts {E} openssl bytes_decode project_root force.

(** ** Reading a trace

    The command lines that were run and the locations that the final
    verification has flagged, in the order of the trace. *)

Definition runs (tr : list event) : list (list string) :=
  flat_map (fun ev => match ev with
                      | ERun args => [args]
                      | _ => []
                      end) tr.

Definition flagged (tr : list event) : list string :=
  flat_map (fun ev => match ev with
                      | EPrint (LWarnMissing location) => [location]
                      | _ => []
                      end) tr.

(** The command lines that belong to the key directories of a list of
    locations. *)
Definition key_cmd (project_root : path) (locations : list string)
  (args : list string) : Prop :=
  exists location,
    In location locations
    /\ (args = genpkey_cmd (project_root // location // PRIVATE_KEY_NAME)
        \/ args = pubout_cmd (project_root // location // PRIVATE_KEY_NAME)
                             (project_root // location // PUBLIC_KEY_NAME)).

(** The command lines that one location can account for: none, the
    private key generation alone, or the private key generation followed
    by the public key derivation. *)
Definition location_runs (project_root : path) (location : string)
  (block : list (list string)) : Prop :=
  block = []
  \/ block = [genpkey_cmd (project_root // location // PRIVATE_KEY_NAME)]
  \/ block = [genpkey_cmd (project_root // location // PRIVATE_KEY_NAME);
              pubout_cmd (project_root // location // PRIVATE_KEY_NAME)
                         (project_root // location // PUBLIC_KEY_NAME)].

(** The exceptions for which [generate_keys] has no [except] clause. *)
Definition uncaught (x : exn) : Prop :=
  match x with
  | CalledProcessError _ _ _ => False
  | FileNotFoundError => False
  | _ => True
  end.

Section Effects.

Variable E : Type.
Variable openssl : list string -> E -> node -> spawned E.

(** The test that opens [generate_keys]. *)
Definition skips (output_dir : path) (force : bool) (t : node) : bool :=
  FS.exists_ (output_dir // PRIVATE_KEY_NAME) t
    && FS.exists_ (output_dir // PUBLIC_KEY_NAME) t && negb force.

(** The tool's hidden state and the filesystem at the end of a call of
    [generate_keys], and the command lines the call runs, read off the
    control flow: nothing happens on the skip path or when [mkdir]
    raises; otherwise the world is the one left by the last invocation
    of the tool, and the second invocation takes place only if the first
    one raised nothing. *)
Definition last_world (output_dir : path) (force : bool) (w : E * node) : E * node :=
  if skips output_dir force (snd w) then w
  else
    match FS.mkdir_p output_dir (snd w) with
    | inr _ => w
    | inl t1 =>
        let private_cmd := genpkey_cmd (output_dir // PRIVATE_KEY_NAME) in
        let public_cmd :=
          pubout_cmd (output_dir // PRIVATE_KEY_NAME) (output_dir // PUBLIC_KEY_NAME) in
        let private := openssl private_cmd (fst w) t1 in
        match raised private_cmd private with
        | Some _ => world_after private
        | None =>
            world_after
              (openssl public_cmd (fst (world_after private)) (snd (world_after private)))
        end
    end.

Definition tool_runs (output_dir : path) (force : bool) (w : E * node)
  : list (list string) :=
  if skips output_dir force (snd w) then []
  else
    match FS.mkdir_p output_dir (snd w) with
    | inr _ => []
    | inl t1 =>
        let private_cmd := genpkey_cmd (output_dir // PRIVATE_KEY_NAME) in
        let public_cmd :=
          pubout_cmd (output_dir // PRIVATE_KEY_NAME) (output_dir // PUBLIC_KEY_NAME) in
        match raised private_cmd (openssl private_cmd (fst w) t1) with
        | Some _ => [private_cmd]
        | None => [private_cmd; public_cmd]
        end
    end.

End Effects.

Arguments last_world {E} openssl output_dir force w.
Arguments tool_runs {E} openssl output_dir force w.

Section Escapes.

Variable E : Type.
Variable openssl : list string -> E -> node -> spawned E.
Variable bytes_decode : list byte -> option string.

(** The faults that [generate_keys] does not recover from, in a call
    that is not skipped: [mkdir] raises [x]; or an invocation of the
    tool (the first, or the second after the first has raised nothing)
    raises an exception [y] that has no [except] clause, and [x] is
    [y]; or it raises a [CalledProcessError] whose standard error is not
    empty and cannot be decoded, and [x] is the [UnicodeDecodeError] of
    the handler. *)
Definition lets_through (output_dir : path) (w : E * node) (x : exn) : Prop :=
  match FS.mkdir_p output_dir (snd w) with
  | inr x0 => x = x0
  | inl t1 =>
      let private_cmd := genpkey_cmd (output_dir // PRIVATE_KEY_NAME) in
      let public_cmd :=
        pubout_cmd (output_dir // PRIVATE_KEY_NAME) (output_dir // PUBLIC_KEY_NAME) in
      let private := openssl private_cmd (fst w) t1 in
      exists y,
        (raised private_cmd private = Some y
         \/ (raised private_cmd private = None
             /\ raised public_cmd
                  (openssl public_cmd (fst (world_after private))
                     (snd (world_after private))) = Some y))
        /\ ((uncaught y /\ x = y)
            \/ (x = UnicodeDecodeError
                /\ exists returncode cmd stderr,
                     y = CalledProcessError returncode cmd stderr
                     /\ stderr <> [] /\ bytes_decode stderr = None))
  end.

End Escapes.

Arguments lets_through {E} openssl bytes_decode output_dir w x.

(** ** Stand-ins for the environment

    Concrete filesystems, tools and decoders on which the definitions
    above are run. *)

Module Doubles.

(** The value that follows [flag] on a command line. *)
Fixpoint arg_after (flag : string) (args : list string) : option string :=
  match args with
  | a :: ((v :: _) as rest) => if String.eqb a flag then Some v else arg_after flag rest
  | _ => None
  end.

Definition pem : list byte := [x2d; x2d; x2d; x2d; x2d].

(** A working tool: it writes the file named after [-out] and exits with
    status 0, or exits with status 1 and a message when it cannot write. *)
Definition openssl_ok (args : list string) (e : unit) (t : node) : spawned unit :=
  match arg_after "-out" args with
  | Some out =>
      match FS.write_file (Path.parts out) pem t with
      | Some t' => Exited 0 [] e t'
      | None => Exited 1 [x65; x72; x72] e t
      end
  | None => Exited 1 [x65; x72; x72] e t
  end.

(** The tool is not installed. *)
Definition openssl_missing (args : list string) (e : unit) (t : node) : spawned unit :=
  NotSpawned FileNotFoundError e t.

(** A tool that reports success for the derivation of the public key
    without writing it. *)
Definition openssl_lying (args : list string) (e : unit) (t : node) : spawned unit :=
  match args with
  | _ :: "genpkey" :: _ => openssl_ok args e t
  | _ => Exited 0 [] e t
  end.

(** A tool that fails on its first [n] invocations and works afterwards;
    its hidden state counts the invocations left to fail. *)
Definition openssl_flaky (args : list string) (e : nat) (t : node) : spawned nat :=
  match e with
  | S e' => Exited 1 [x65; x72; x72] e' t
  | O =>
      match openssl_ok args tt t with
      | Exited returncode stderr _ t' => Exited returncode stderr O t'
      | NotSpawned x _ t' => NotSpawned x O t'
      end
  end.

(** A tool that works [n] times and is then killed with garbage on its
    standard error. *)
Definition openssl_dying (args : list string) (e : nat) (t : node) : spawned nat :=
  match e with
  | S e' =>
      match openssl_ok args tt t with
      | Exited returncode stderr _ t' => Exited returncode stderr e' t'
      | NotSpawned x _ t' => NotSpawned x e' t'
      end
  | O => Exited 1 [xff] O t
  end.

(** A tool that cannot be executed on its first [n] invocations (the
    file is there without the right to run it) and works afterwards. *)
Definition openssl_denied (args : list string) (e : nat) (t : node) : spawned nat :=
  match e with
  | S e' => NotSpawned PermissionError e' t
  | O =>
      match openssl_ok args tt t with
      | Exited returncode stderr _ t' => Exited returncode stderr O t'
      | NotSpawned x _ t' => NotSpawned x O t'
      end
  end.

(** A tool that exits with status 1 and garbage on its standard error on
    its first [n] invocations and works afterwards. *)
Definition openssl_garbled (args : list string) (e : nat) (t : node) : spawned nat :=
  match e with
  | S e' => Exited 1 [xff] e' t
  | O =>
      match openssl_ok args tt t with
      | Exited returncode stderr _ t' => Exited returncode stderr O t'
      | NotSpawned x _ t' => NotSpawned x O t'
      end
  end.

(** A decoder for 7-bit text; any other byte is a decoding error. *)
Fixpoint decode_ascii (b : list byte) : option string :=
  match b with
  | [] => Some EmptyString
  | c :: b' =>
      if (Byte.to_N c <? 128)%N then
        match decode_ascii b' with
        | Some text => Some (String (ascii_of_byte c) text)
        | None => None
        end
      else None
  end.

(** A checkout in [/opt/stormstack] with the script in [scripts/]. *)
Definition script_dir : path := ["opt"; "stormstack"; "scripts"].

Definition checkout (extra : list (string * node)) : node :=
  FS.Dir [("opt", FS.Dir [("stormstack",
    FS.Dir ([("pom.xml", FS.File []);
             ("scripts", FS.Dir [("gen_secrets.py", FS.File [])])] ++ extra))])].

Definition fs_fresh : node := checkout [].

(** The same checkout with a regular file named [thunder]. *)
Definition fs_blocked : node := checkout [("thunder", FS.File [])].

(** A checkout with both key pairs in place. *)
Definition resources : node :=
  FS.Dir [("resources", FS.Dir [("privateKey.pem", FS.File pem);
                                ("publicKey.pem", FS.File pem)])].

Definition fs_provisioned : node :=
  checkout [("thunder", FS.Dir [("engine", FS.Dir [("provider", FS.Dir [("src",
    FS.Dir [("main", resources); ("test", resources)])])])])].

(** No marker anywhere but at the filesystem root. *)
Definition fs_root_marker : node :=
  FS.Dir [("pom.xml", FS.File []);
          ("opt", FS.Dir [("stormstack", FS.Dir [("scripts", FS.Dir [])])])].

Definition start {E} (e : E) (t : node) : state E := mkState t e [].

Definition argv_plain : list string := ["gen_secrets.py"].
Definition argv_force : list string := ["gen_secrets.py"; "--force"].

Definition main_location : string := "thunder/engine/provider/src/main/resources".
Definition test_location : string := "thunder/engine/provider/src/test/resources".

Definition main_dir : path := ["opt"; "stormstack"] // main_location.
Definition test_dir : path := ["opt"; "stormstack"] // test_location.

End Doubles.

(** * Properties *)

(** ** Paths and the filesystem *)

Lemma joinpath_private (d : path) :
  d // PRIVATE_KEY_NAME = d ++ ["privateKey.pem"].
Proof. reflexivity. Qed.

Lemma joinpath_public (d : path) :
  d // PUBLIC_KEY_NAME = d ++ ["publicKey.pem"].
Proof. reflexivity. Qed.

Lemma joinpath_marker (d : path) : d // "pom.xml" = d ++ ["pom.xml"].
Proof. reflexivity. Qed.

Lemma parent_snoc (p : path) (c : string) : Path.parent (p ++ [c]) = p.
Proof. apply removelast_last. Qed.

Lemma parent_fixpoint (p : path) : Path.parent p = p <-> p = [].
Proof.
  split; [| intros ->; reflexivity].
  destruct p as [| c p'] using rev_ind; [reflexivity |].
  rewrite parent_snoc. intros H.
  apply (f_equal (@List.length string)) in H.
  rewrite length_app in H. simpl in H. lia.
Qed.

Lemma lookup_app (p q : path) (t : node) :
  FS.lookup (p ++ q) t =
  match FS.lookup p t with
  | Some n => FS.lookup q n
  | None => None
  end.
Proof.
  revert t. induction p as [| c p IH]; intros t; simpl; [reflexivity |].
  destruct t as [content | es]; [reflexivity |].
  destruct (FS.assoc c es); [apply IH | reflexivity].
Qed.

(** A directory that holds something is a directory. *)
Lemma exists_child_is_dir (d : path) (name : string) (t : node) :
  FS.exists_ (d ++ [name]) t = true -> FS.is_dir d t = true.
Proof.
  unfold FS.exists_, FS.is_dir. rewrite lookup_app.
  destruct (FS.lookup d t) as [[content | es] |]; simpl; congruence.
Qed.

Lemma set_entry_same (c : string) (m : node) (es : list (string * node)) :
  FS.assoc c es = Some m -> FS.set_entry c m es = es.
Proof.
  induction es as [| [k n] es IH]; simpl; [discriminate |].
  destruct (String.eqb k c) eqn:Hk.
  - intros [= ->]. reflexivity.
  - intros H. now rewrite IH.
Qed.

(** [mkdir] with [exist_ok] on a directory that is there changes nothing. *)
Lemma mkdir_p_existing (p : path) (t : node) :
  FS.is_dir p t = true -> FS.mkdir_p p t = inl t.
Proof.
  unfold FS.is_dir. revert t.
  induction p as [| c p IH]; intros [content | es]; simpl; try congruence.
  destruct (FS.assoc c es) as [m |] eqn:Hc; [| discriminate].
  intros H. rewrite (IH m H). now rewrite set_entry_same.
Qed.

Lemma assoc_set_entry (c c' : string) (n : node) (es : list (string * node)) :
  FS.assoc c' (FS.set_entry c n es) =
  if String.eqb c c' then Some n else FS.assoc c' es.
Proof.
  induction es as [| [k m] es IH]; simpl.
  - reflexivity.
  - destruct (String.eqb k c) eqn:Hk; simpl.
    + apply String.eqb_eq in Hk as ->. now destruct (String.eqb c c').
    + rewrite IH. destruct (String.eqb k c') eqn:Hk'; [| reflexivity].
      destruct (String.eqb c c') eqn:Hcc'; [| reflexivity].
      apply String.eqb_eq in Hk', Hcc'. subst.
      rewrite String.eqb_refl in Hk. discriminate.
Qed.

Lemma assoc_snoc (c c' : string) (n : node) (es : list (string * node)) :
  FS.assoc c' (es ++ [(c, n)]) =
  match FS.assoc c' es with
  | Some m => Some m
  | None => if String.eqb c c' then Some n else None
  end.
Proof.
  induction es as [| [k m] es IH]; simpl; [reflexivity |].
  now destruct (String.eqb k c').
Qed.

Lemma unblocked_fresh_dirs (q p : path) : FS.unblocked q (FS.fresh_dirs p) = true.
Proof.
  revert p. induction q as [| c q IH]; intros [| c' p]; simpl; try reflexivity.
  destruct (String.eqb c' c); [apply IH | reflexivity].
Qed.

(** [mkdir] succeeds exactly on an unblocked path. *)
Lemma mkdir_p_unblocked (p : path) (t : node) :
  (exists t', FS.mkdir_p p t = inl t') <-> FS.unblocked p t = true.
Proof.
  revert t. induction p as [| c p IH]; intros [content | es]; simpl.
  - split; [intros [t' H] |]; discriminate.
  - split; [reflexivity | now exists (FS.Dir es)].
  - split; [intros [t' H] |]; discriminate.
  - destruct (FS.assoc c es) as [m |].
    + rewrite <- IH. destruct (FS.mkdir_p p m) as [m' | x].
      * split; eauto.
      * split; intros [t' H]; discriminate.
    + split; [reflexivity | eauto].
Qed.

(** Creating directories puts no regular file anywhere. *)
Lemma mkdir_p_keeps_unblocked (p : path) :
  forall (q : path) (t t1 : node),
    FS.mkdir_p p t = inl t1 ->
    FS.unblocked q t = true -> FS.unblocked q t1 = true.
Proof.
  induction p as [| c p IH]; intros q [content | es] t1; simpl; try discriminate.
  - now intros [= <-].
  - destruct (FS.assoc c es) as [m |] eqn:Hc.
    + destruct (FS.mkdir_p p m) as [m' | x] eqn:Hm; [| discriminate].
      intros [= <-]. destruct q as [| c' q]; simpl; [reflexivity |].
      rewrite assoc_set_entry.
      destruct (String.eqb c c') eqn:Hcc'; [| trivial].
      apply String.eqb_eq in Hcc' as <-. rewrite Hc. now apply IH.
    + intros [= <-]. destruct q as [| c' q]; simpl; [reflexivity |].
      rewrite assoc_snoc.
      destruct (FS.assoc c' es); [trivial |].
      intros _. destruct (String.eqb c c'); [apply unblocked_fresh_dirs | reflexivity].
Qed.

(** ** The root locator *)

Lemma walk_up_unfold (fuel : nat) (t : node) (current : path) :
  walk_up fuel t current =
  if Path.eq_dec current (Path.parent current) then Some Exhausted
  else
    match fuel with
    | O => None
    | S fuel' =>
        if FS.exists_ (current // "pom.xml") t then Some (Found current)
        else walk_up fuel' t (Path.parent current)
    end.
Proof. destruct fuel; reflexivity. Qed.

(** At the filesystem root the loop condition is false at once: the body
    is not entered, whatever the root holds. *)
Lemma walk_up_root (fuel : nat) (t : node) : walk_up fuel t [] = Some Exhausted.
Proof. destruct fuel; reflexivity. Qed.

Lemma walk_up_snoc (fuel : nat) (t : node) (p : path) (c : string) :
  walk_up (S fuel) t (p ++ [c]) =
  if FS.exists_ ((p ++ [c]) // "pom.xml") t then Some (Found (p ++ [c]))
  else walk_up fuel t p.
Proof.
  rewrite walk_up_unfold, parent_snoc.
  destruct (Path.eq_dec (p ++ [c]) p) as [Heq | _]; [| reflexivity].
  apply (f_equal (@List.length string)) in Heq.
  rewrite length_app in Heq. simpl in Heq. lia.
Qed.

Lemma on_walk_parent (d p : path) (c : string) :
  on_walk d p -> on_walk d (p ++ [c]).
Proof.
  intros [Hd [q ->]]. split; [assumption |].
  exists (q ++ [c]). now rewrite app_assoc.
Qed.

Lemma on_walk_self (p : path) (c : string) : on_walk (p ++ [c]) (p ++ [c]).
Proof.
  split; [now destruct p | exists []; now rewrite app_nil_r].
Qed.

(** One iteration per component is enough, and the loop then ends in one
    of its two ways: at the nearest tested directory with the marker, or
    at the root when no tested directory has it. *)
Lemma walk_up_spec (t : node) (current : path) :
  forall fuel, List.length current <= fuel ->
    (exists d, walk_up fuel t current = Some (Found d)
               /\ on_walk d current
               /\ FS.exists_ (d // "pom.xml") t = true)
    \/ (walk_up fuel t current = Some Exhausted
        /\ forall d, on_walk d current -> FS.exists_ (d // "pom.xml") t = false).
Proof.
  induction current as [| c p IH] using rev_ind; intros fuel Hfuel.
  - right. split; [apply walk_up_root |].
    intros d [Hd [q Hq]]. symmetry in Hq.
    apply app_eq_nil in Hq. tauto.
  - rewrite length_app in Hfuel. simpl in Hfuel.
    destruct fuel as [| fuel]; [lia |].
    rewrite walk_up_snoc.
    destruct (FS.exists_ ((p ++ [c]) // "pom.xml") t) eqn:Hm.
    + left. exists (p ++ [c]). auto using on_walk_self.
    + destruct (IH fuel ltac:(lia)) as [[d [Hw [Hd Hex]]] | [Hw Hno]].
      * left. exists d. auto using on_walk_parent.
      * right. split; [assumption |].
        intros d [Hd [q Hq]].
        destruct q as [| x q'] using rev_ind.
        -- rewrite app_nil_r in Hq. now subst d.
        -- rewrite app_assoc in Hq. apply app_inj_tail in Hq as [Hq _].
           apply Hno. split; [assumption | now exists q'].
Qed.

(** More iterations than components change nothing. *)
Lemma walk_up_fuel (t : node) (current : path) :
  forall fuel fuel', List.length current <= fuel -> List.length current <= fuel' ->
    walk_up fuel t current = walk_up fuel' t current.
Proof.
  induction current as [| c p IH] using rev_ind; intros fuel fuel' H H'.
  - now rewrite !walk_up_root.
  - rewrite length_app in H, H'. simpl in H, H'.
    destruct fuel as [| fuel]; [lia |]. destruct fuel' as [| fuel']; [lia |].
    rewrite !walk_up_snoc.
    destruct (FS.exists_ ((p ++ [c]) // "pom.xml") t); [reflexivity |].
    apply IH; lia.
Qed.

Lemma find_project_root_walk (t : node) (script_dir : path) (fuel : nat) (w : walk) :
  List.length script_dir <= fuel ->
  walk_up fuel t script_dir = Some w ->
  find_project_root t script_dir =
  match w with
  | Found project_root => project_root
  | Exhausted => script_dir
  end.
Proof.
  intros Hfuel Hw. unfold find_project_root.
  rewrite (walk_up_fuel t script_dir _ fuel (le_n _) Hfuel), Hw.
  reflexivity.
Qed.

(** C6. The upward walk of the root locator ends for every starting
    directory: one iteration per path component is always enough for the
    loop to leave through one of its two exits, and [find_project_root]
    returns the result of that exit.  The loop runs out at the filesystem
    root exactly when no directory on the walk holds [pom.xml], and the
    starting directory is then returned. *)
Theorem find_project_root_terminates (t : node) (script_dir : path) (fuel : nat) :
  List.length script_dir <= fuel ->
  exists w,
    walk_up fuel t script_dir = Some w
    /\ find_project_root t script_dir =
       match w with
       | Found project_root => project_root
       | Exhausted => script_dir
       end
    /\ (w = Exhausted <->
        forall d, on_walk d script_dir -> FS.exists_ (d // "pom.xml") t = false)
    /\ ((forall d, on_walk d script_dir -> FS.exists_ (d // "pom.xml") t = false) ->
        find_project_root t script_dir = script_dir).
Proof.
  intros Hfuel.
  destruct (walk_up_spec t script_dir fuel Hfuel) as [[d [Hw [Hd Hex]]] | [Hw Hno]].
  - exists (Found d). split; [assumption |].
    split; [exact (find_project_root_walk t script_dir fuel _ Hfuel Hw) |].
    split.
    + split; [discriminate |].
      intros Hno. rewrite (Hno d Hd) in Hex. discriminate.
    + intros Hno. rewrite (Hno d Hd) in Hex. discriminate.
  - exists Exhausted. split; [assumption |].
    split; [exact (find_project_root_walk t script_dir fuel _ Hfuel Hw) |].
    split; [tauto |].
    intros _. exact (find_project_root_walk t script_dir fuel _ Hfuel Hw).
Qed.

(** C10. The filesystem root is never tested for the marker: at the root
    the loop ends before its body runs, for any number of allowed
    iterations and any content of the root, so with a [pom.xml] exactly
    at the filesystem root and none in the directories of the walk the
    locator returns the starting directory. *)
Theorem root_marker_is_ignored (t : node) (script_dir : path) (fuel : nat) :
  FS.exists_ ([] // "pom.xml") t = true ->
  (forall d, on_walk d script_dir -> FS.exists_ (d // "pom.xml") t = false) ->
  walk_up fuel t [] = Some Exhausted
  /\ find_project_root t script_dir = script_dir.
Proof.
  intros _ Hno. split; [apply walk_up_root |].
  destruct (walk_up_spec t script_dir _ (le_n _)) as [[d [_ [Hd Hex]]] | [Hw _]].
  - rewrite (Hno d Hd) in Hex. discriminate.
  - exact (find_project_root_walk t script_dir _ _ (le_n _) Hw).
Qed.

(** ** The workflow *)

Section WorkflowProperties.

Variable E : Type.
Variable openssl : list string -> E -> node -> spawned E.
Variable bytes_decode : list byte -> option string.

Lemma after_after (evs evs' : list event) (w w' : E * node) (st : state E) :
  after evs' w' (after evs w st) = after (evs ++ evs') w' st.
Proof. unfold after. simpl. now rewrite app_assoc. Qed.

Lemma world_after_eta (r : spawned E) :
  (fst (world_after r), snd (world_after r)) = world_after r.
Proof. now destruct (world_after r). Qed.

(** *** The final re-check *)

Lemma verify_eq (project_root : path) (locations : list string) :
  forall (all_present : bool) (st : state E),
    verify project_root locations all_present st =
    (Ok (all_present && forallb (both_present project_root (st_fs st)) locations),
     after (warnings project_root (st_fs st) locations) (world st) st).
Proof.
  induction locations as [| location rest IH]; intros all_present st.
  - simpl. unfold ret, after, warnings. simpl.
    rewrite andb_true_r, app_nil_r. now destruct st.
  - cbn [verify]. unfold bind at 1 2. unfold path_exists.
    unfold warnings, missing. cbn [filter forallb].
    fold (both_present project_root (st_fs st) location).
    destruct (both_present project_root (st_fs st) location) eqn:Hp; cbn [negb].
    + rewrite IH. now rewrite andb_true_l.
    + unfold bind, print. rewrite IH. cbn [map].
      rewrite andb_false_l, andb_false_r.
      unfold after, world, warnings, missing. simpl.
      now rewrite <- app_assoc.
Qed.

(** *** One location *)

Lemma world_of_after (evs : list event) (w : E * node) (st : state E) :
  world (after evs w st) = w.
Proof. now destruct w. Qed.

Lemma generate_keys_skip (output_dir : path) (st : state E) :
  FS.exists_ (output_dir // PRIVATE_KEY_NAME) (st_fs st) = true ->
  FS.exists_ (output_dir // PUBLIC_KEY_NAME) (st_fs st) = true ->
  generate_keys openssl bytes_decode output_dir false st =
  (Ok false, after [EPrint (LKeysExist output_dir)] (world st) st).
Proof.
  intros Hprivate Hpublic.
  unfold generate_keys, bind, path_exists. rewrite Hprivate, Hpublic.
  reflexivity.
Qed.

(** A recovered exception ends the attempt with the return value [False]
    and an error line; the world is left as the tool left it. *)
Lemma except_recovered (x : exn) :
  recovered bytes_decode x ->
  exists h evs,
    generate_keys_except E bytes_decode x = Some h
    /\ (forall st : state E, h st = (Ok false, after evs (world st) st))
    /\ flat_map entry_of evs = [Outcome Failed].
Proof.
  destruct x as [returncode cmd stderr | | | | |]; simpl; try contradiction.
  - intros Hdec. destruct stderr as [| b stderr'].
    + eexists. exists [EPrint (LErrFailed returncode cmd)].
      split; [reflexivity |]. split; [| reflexivity].
      intros st. unfold bind, print, ret. reflexivity.
    + destruct Hdec as [Hnil | Hdec]; [discriminate |].
      destruct (bytes_decode (b :: stderr')) as [text |] eqn:Htext; [| congruence].
      eexists. exists [EPrint (LErrFailed returncode cmd); EPrint (LStderr text)].
      split; [reflexivity |]. split; [| reflexivity].
      intros st. unfold bind, print, decode. rewrite Htext.
      unfold ret. rewrite world_of_after, after_after. reflexivity.
  - intros _. eexists. exists [EPrint LErrNoOpenssl].
    split; [reflexivity |]. split; [| reflexivity].
    intros st. reflexivity.
Qed.

(** The part of [generate_keys] after the existence test. *)
Lemma generate_keys_unskipped (output_dir : path) (force : bool) (st : state E) :
  FS.exists_ (output_dir // PRIVATE_KEY_NAME) (st_fs st)
    && FS.exists_ (output_dir // PUBLIC_KEY_NAME) (st_fs st) && negb force = false ->
  generate_keys openssl bytes_decode output_dir force st =
  match FS.mkdir_p output_dir (st_fs st) with
  | inr x => (Raise x, after [EMkdir output_dir] (world st) st)
  | inl t1 =>
      let private_cmd := genpkey_cmd (output_dir // PRIVATE_KEY_NAME) in
      let public_cmd :=
        pubout_cmd (output_dir // PRIVATE_KEY_NAME) (output_dir // PUBLIC_KEY_NAME) in
      let private := openssl private_cmd (st_env st) t1 in
      let st1 :=
        after [EMkdir output_dir;
               EPrint (LGenPrivate (output_dir // PRIVATE_KEY_NAME));
               ERun private_cmd] (world_after private) st in
      let catch x st' :=
        match generate_keys_except E bytes_decode x with
        | Some h => h st'
        | None => (Raise x, st')
        end in
      match raised private_cmd private with
      | Some x => catch x st1
      | None =>
          let public :=
            openssl public_cmd (fst (world_after private)) (snd (world_after private)) in
          let st2 :=
            after [EPrint (LGenPublic (output_dir // PUBLIC_KEY_NAME));
                   ERun public_cmd] (world_after public) st1 in
          match raised public_cmd public with
          | Some x => catch x st2
          | None => (Ok true, after [EPrint (LKeysGenerated output_dir)] (world st2) st2)
          end
      end
  end.
Proof.
  intros Hskip.
  unfold generate_keys, bind at 1 2, path_exists. rewrite Hskip.
  unfold bind at 1, mkdir.
  destruct (FS.mkdir_p output_dir (st_fs st)) as [t1 | x]; [| reflexivity].
  unfold try_except, bind, print, subprocess_run. cbn [st_env st_fs after fst snd].
  unfold world. cbn [st_env st_fs after fst snd].
  destruct (raised _ (openssl (genpkey_cmd _) (st_env st) t1)) as [x |] eqn:Hprivate.
  - rewrite !after_after. reflexivity.
  - destruct (world_after (openssl (genpkey_cmd _) (st_env st) t1)) as [e2 t2].
    cbn [fst snd].
    destruct (raised _ (openssl (pubout_cmd _ _) e2 t2)) as [x |] eqn:Hpublic.
    + rewrite !after_after. reflexivity.
    + unfold ret. rewrite !after_after. reflexivity.
Qed.

(** [generate_keys] carries out the attempt: it returns [True] exactly
    for [Generated], leaves the world of the attempt, prints the outcome
    once, and has run the tool unless the outcome is [Skipped]. *)
Lemma generate_keys_attempt (output_dir : path) (force : bool) (st : state E)
  (o : ProvisioningOutcome) (w' : E * node) :
  attempt openssl bytes_decode output_dir force (world st) o w' ->
  exists evs,
    generate_keys openssl bytes_decode output_dir force st =
      (Ok (is_generated o), after evs w' st)
    /\ flat_map entry_of evs = [Outcome o]
    /\ (o <> Skipped ->
        In (ERun (genpkey_cmd (output_dir // PRIVATE_KEY_NAME))) evs).
Proof.
  unfold world. intros H.
  remember (st_env st, st_fs st) as w eqn:Hw.
  destruct H as [e t Hprivate Hpublic Hforce
                | e t t1 x Hskip Hmkdir private Hraised Hrecovered
                | e t t1 x Hskip Hmkdir private Hprivate public Hraised Hrecovered
                | e t t1 Hskip Hmkdir private Hprivate public Hpublic];
    injection Hw as -> ->.
  - subst force. exists [EPrint (LKeysExist output_dir)].
    rewrite generate_keys_skip by assumption.
    unfold world. repeat split. congruence.
  - rewrite generate_keys_unskipped, Hmkdir by assumption. cbv zeta.
    fold private. rewrite Hraised.
    destruct (except_recovered x Hrecovered) as (h & evs & -> & Hh & Hevs).
    rewrite Hh, world_of_after, after_after.
    eexists. split; [reflexivity |]. split.
    + simpl. exact Hevs.
    + intros _. simpl. auto.
  - rewrite generate_keys_unskipped, Hmkdir by assumption. cbv zeta.
    fold private. rewrite Hprivate. fold public. rewrite Hraised.
    destruct (except_recovered x Hrecovered) as (h & evs & -> & Hh & Hevs).
    rewrite Hh, world_of_after, !after_after.
    eexists. split; [reflexivity |]. split.
    + simpl. exact Hevs.
    + intros _. simpl. auto.
  - rewrite generate_keys_unskipped, Hmkdir by assumption. cbv zeta.
    fold private. rewrite Hprivate. fold public. rewrite Hpublic.
    rewrite world_of_after, !after_after.
    eexists. split; [reflexivity |]. split.
    + reflexivity.
    + intros _. simpl. auto.
Qed.

(** *** The two loops and [main] *)

Lemma provision_cons (project_root : path) (force : bool) (location : string)
  (rest : list string) (success_count : nat) (st : state E) :
  provision openssl bytes_decode project_root force (location :: rest) success_count st =
  match generate_keys openssl bytes_decode (project_root // location) force
          (after [EPrint (LProcessing location)] (world st) st) with
  | (Ok generated, st') =>
      provision openssl bytes_decode project_root force rest
        (if generated then S success_count else success_count)
        (after [EPrint LBlank] (world st') st')
  | (Raise x, st') => (Raise x, st')
  end.
Proof.
  cbn [provision]. unfold bind at 1, print at 1. unfold bind at 1.
  destruct (generate_keys _ _ _ _ _) as [[generated | x] st']; reflexivity.
Qed.

(** [main] is the provisioning loop followed by a re-check that reads
    nothing but the filesystem the loop has left. *)
Lemma main_eq (argv : list string) (script_dir : path) (st : state E) :
  main openssl bytes_decode argv script_dir st =
  let force := existsb (String.eqb "--force") argv in
  let project_root := find_project_root (st_fs st) script_dir in
  let st1 :=
    after [EPrint LBanner; EPrint LRule; EPrint (LProjectRoot project_root);
           EPrint LBlank] (world st) st in
  match provision openssl bytes_decode project_root force KEY_LOCATIONS 0 st1 with
  | (Raise x, st2) => (Raise x, st2)
  | (Ok success_count, st2) =>
      let all_present := forallb (both_present project_root (st_fs st2)) KEY_LOCATIONS in
      (Ok (exit_code all_present),
       after ([EPrint LRule; EPrint (summary success_count)]
                ++ warnings project_root (st_fs st2) KEY_LOCATIONS
                ++ [EPrint (verdict all_present)]) (world st2) st2)
  end.
Proof.
  unfold main. cbv zeta.
  unfold bind at 1 2 3 4 5, print at 1 2 3 4.
  rewrite !world_of_after, !after_after. cbn [app].
  unfold bind at 1.
  change (st_fs (after _ (world st) st)) with (st_fs st).
  destruct (provision _ _ _ _ _ _ _) as [[success_count | x] st2]; [| reflexivity].
  unfold bind at 1 2, print at 1.
  assert (Hsum :
    (if (0 <? success_count)%nat then print E (LSummaryGenerated success_count)
     else print E LSummaryNone)
    = print E (summary success_count)) by (unfold summary; now destruct (0 <? success_count)%nat).
  rewrite Hsum. unfold bind at 1, print at 1.
  rewrite !world_of_after, !after_after. unfold bind at 1.
  rewrite verify_eq. rewrite world_of_after, after_after. cbn [andb].
  change (st_fs (after _ (world st2) st2)) with (st_fs st2).
  destruct (forallb _ KEY_LOCATIONS); unfold bind, print, ret;
    rewrite world_of_after, after_after, <- app_assoc; reflexivity.
Qed.

Lemma after_nil (st : state E) : after [] (world st) st = st.
Proof. destruct st. unfold after, world. simpl. now rewrite app_nil_r. Qed.

Lemma pair_up_combine (l : list (string * ProvisioningOutcome)) :
  pair_up (flat_map (fun lo => [Header (fst lo); Outcome (snd lo)]) l) = l.
Proof.
  induction l as [| [location o] l IH]; simpl; [reflexivity |].
  now rewrite IH.
Qed.

Lemma entry_of_summary (success_count : nat) :
  entry_of (EPrint (summary success_count)) = [].
Proof. unfold summary. now destruct (0 <? success_count)%nat. Qed.

Lemma entry_of_verdict (all_present : bool) :
  entry_of (EPrint (verdict all_present)) = [].
Proof. now destruct all_present. Qed.

Lemma warnings_no_entry (project_root : path) (t : node) (locations : list string) :
  flat_map entry_of (warnings project_root t locations) = [].
Proof.
  unfold warnings. induction (missing project_root t locations); simpl; auto.
Qed.

Lemma warnings_In (project_root : path) (t : node) (locations : list string)
  (location : string) :
  In location locations ->
  both_present project_root t location = false ->
  In (EPrint (LWarnMissing location)) (warnings project_root t locations).
Proof.
  intros Hin Hmissing. unfold warnings, missing.
  apply (in_map (fun l => EPrint (LWarnMissing l))), filter_In.
  split; [assumption |]. now rewrite Hmissing.
Qed.

(** The first loop goes through every location of the list whatever the
    outcomes are, and the printed report is the list of the outcomes. *)
Lemma provision_attempts (project_root : path) (force : bool)
  (locations : list string) (w : E * node) (os : list ProvisioningOutcome)
  (w' : E * node) :
  attempts openssl bytes_decode project_root force locations w os w' ->
  forall (st : state E) (success_count : nat),
    world st = w ->
    exists evs,
      provision openssl bytes_decode project_root force locations success_count st =
        (Ok (success_count + List.length (filter is_generated os)), after evs w' st)
      /\ flat_map entry_of evs =
         flat_map (fun lo => [Header (fst lo); Outcome (snd lo)]) (combine locations os)
      /\ (forall location o,
            In (location, o) (combine locations os) -> o <> Skipped ->
            In (ERun (genpkey_cmd (project_root // location // PRIVATE_KEY_NAME))) evs).
Proof.
  induction 1 as [w | location rest w o w1 os w2 Hattempt Hrest IH];
    intros st success_count Hw.
  - exists []. subst w. simpl. unfold ret.
    rewrite after_nil, Nat.add_0_r. repeat split. contradiction.
  - rewrite provision_cons.
    set (st0 := after [EPrint (LProcessing location)] (world st) st).
    assert (Hw0 : world st0 = w) by (unfold st0; now rewrite world_of_after).
    rewrite <- Hw0 in Hattempt.
    destruct (generate_keys_attempt _ _ _ _ _ Hattempt) as (evs1 & -> & Hrep1 & Hrun1).
    rewrite world_of_after.
    destruct (IH (after [EPrint LBlank] w1 (after evs1 w1 st0))
                (if is_generated o then S success_count else success_count)
                (world_of_after _ _ _)) as (evs2 & -> & Hrep2 & Hrun2).
    unfold st0. rewrite !after_after.
    eexists. split; [| split].
    + f_equal. f_equal. simpl. destruct (is_generated o); simpl; lia.
    + rewrite !flat_map_app, Hrep1, Hrep2. reflexivity.
    + intros l o' [[= <- <-] | Hin] Ho'.
      * rewrite !in_app_iff. auto.
      * rewrite !in_app_iff. eauto.
Qed.

(** [main] when every location has an outcome. *)
Lemma main_attempts (argv : list string) (script_dir : path) (st : state E)
  (os : list ProvisioningOutcome) (w' : E * node) :
  let force := existsb (String.eqb "--force") argv in
  let project_root := find_project_root (st_fs st) script_dir in
  attempts openssl bytes_decode project_root force KEY_LOCATIONS (world st) os w' ->
  exists evs,
    main openssl bytes_decode argv script_dir st =
      (Ok (exit_code (forallb (both_present project_root (snd w')) KEY_LOCATIONS)),
       after evs w' st)
    /\ report evs = combine KEY_LOCATIONS os
    /\ (forall location o,
          In (location, o) (combine KEY_LOCATIONS os) -> o <> Skipped ->
          In (ERun (genpkey_cmd (project_root // location // PRIVATE_KEY_NAME))) evs)
    /\ (forall ev, In ev (warnings project_root (snd w') KEY_LOCATIONS) -> In ev evs).
Proof.
  intros force project_root Hattempts.
  rewrite main_eq. fold force project_root. cbv zeta.
  set (st1 := after _ (world st) st).
  destruct (provision_attempts _ _ _ _ _ _ Hattempts st1 0) as (evs & -> & Hrep & Hrun).
  { unfold st1. now rewrite world_of_after. }
  unfold st1. rewrite world_of_after, !after_after.
  change (st_fs (after _ w' _)) with (snd w').
  eexists. split; [reflexivity |]. split; [| split].
  - unfold report. rewrite !flat_map_app, Hrep, warnings_no_entry.
    cbn [flat_map]. rewrite entry_of_summary, entry_of_verdict.
    cbn [entry_of app]. rewrite app_nil_r. apply pair_up_combine.
  - intros location o Hin Ho. rewrite !in_app_iff. eauto.
  - intros ev Hin. rewrite !in_app_iff. auto.
Qed.

Lemma forallb_false_In {A : Type} (f : A -> bool) (l : list A) (x : A) :
  In x l -> f x = false -> forallb f l = false.
Proof.
  intros Hin Hx. destruct (forallb f l) eqn:Hall; [| reflexivity].
  rewrite forallb_forall in Hall. rewrite (Hall x Hin) in Hx. discriminate.
Qed.

(** *** The exit code *)

(** C1. Whenever [main] returns, its exit code is a function of the final
    filesystem alone: it is 0 if every configured location has both
    [privateKey.pem] and [publicKey.pem] there, and 1 otherwise. *)
Theorem exit_code_contract (argv : list string) (script_dir : path)
  (st st' : state E) (code : Z) :
  main openssl bytes_decode argv script_dir st = (Ok code, st') ->
  let project_root := find_project_root (st_fs st) script_dir in
  code = exit_code (forallb (both_present project_root (st_fs st')) KEY_LOCATIONS)
  /\ (code = 0%Z <->
      forall location, In location KEY_LOCATIONS ->
        FS.exists_ (project_root // location // PRIVATE_KEY_NAME) (st_fs st') = true
        /\ FS.exists_ (project_root // location // PUBLIC_KEY_NAME) (st_fs st') = true)
  /\ (code = 0%Z \/ code = 1%Z).
Proof.
  intros Hmain project_root. subst project_root.
  rewrite main_eq in Hmain. cbv zeta in Hmain.
  destruct (provision _ _ _ _ _ _ _) as [[success_count | x] st2]; [| discriminate].
  assert (Hcode :
    code = exit_code (forallb (both_present (find_project_root (st_fs st) script_dir)
                                 (st_fs st2)) KEY_LOCATIONS)
    /\ st_fs st' = st_fs st2) by (injection Hmain as <- <-; split; reflexivity).
  destruct Hcode as [-> ->]. clear Hmain.
  split; [reflexivity |].
  remember (forallb (both_present (find_project_root (st_fs st) script_dir) (st_fs st2))
              KEY_LOCATIONS) as all_present eqn:Hall.
  symmetry in Hall. destruct all_present; cbn [exit_code].
  - split; [| auto]. split; [intros _ | reflexivity].
    rewrite forallb_forall in Hall. intros location Hin.
    apply andb_true_iff. exact (Hall location Hin).
  - split; [| auto]. split; [discriminate |]. intros Hboth.
    exfalso.
    assert (Htrue : forallb (both_present (find_project_root (st_fs st) script_dir)
                               (st_fs st2)) KEY_LOCATIONS = true).
    { apply forallb_forall. intros location Hin.
      apply andb_true_iff. exact (Hboth location Hin). }
    congruence.
Qed.

(** C2. The final verification looks at the filesystem and at nothing
    else: a configured location whose public key file is absent at the
    end is flagged as missing and makes the exit code 1, whatever the
    provisioning loop has reported for that location, success included. *)
Theorem verification_independence (argv : list string) (script_dir : path)
  (st st' : state E) (code : Z) (location : string) :
  main openssl bytes_decode argv script_dir st = (Ok code, st') ->
  In location KEY_LOCATIONS ->
  FS.exists_ (find_project_root (st_fs st) script_dir // location // PUBLIC_KEY_NAME)
    (st_fs st') = false ->
  code = 1%Z
  /\ In (EPrint (LWarnMissing location)) (st_trace st')
  /\ In (EPrint LSomeMissing) (st_trace st').
Proof.
  intros Hmain Hin Hpublic. rewrite main_eq in Hmain. cbv zeta in Hmain.
  destruct (provision _ _ _ _ _ _ _) as [[success_count | x] st2]; [| discriminate].
  assert (Hmissing :
    both_present (find_project_root (st_fs st) script_dir) (st_fs st2) location = false).
  { injection Hmain as _ <-. unfold both_present.
    change (st_fs (after _ (world st2) st2)) with (st_fs st2) in Hpublic.
    rewrite Hpublic. apply andb_false_r. }
  rewrite (forallb_false_In _ _ _ Hin Hmissing) in Hmain.
  injection Hmain as <- <-.
  split; [reflexivity |]. cbn [st_trace after verdict].
  split; apply in_or_app; right; right; right; apply in_or_app.
  - left. now apply warnings_In.
  - right. now left.
Qed.

(** *** The skip path *)

(** C8. When both files exist and [force] is false, [generate_keys]
    returns [False] with outcome [Skipped] and its only effect is the
    line it prints: the filesystem and the tool are left as they were, no
    directory is created and no process is run. *)
Theorem skip_path_frame (output_dir : path) (st : state E) :
  FS.exists_ (output_dir // PRIVATE_KEY_NAME) (st_fs st) = true ->
  FS.exists_ (output_dir // PUBLIC_KEY_NAME) (st_fs st) = true ->
  exists st',
    generate_keys openssl bytes_decode output_dir false st = (Ok false, st')
    /\ st_fs st' = st_fs st
    /\ st_env st' = st_env st
    /\ st_trace st' = st_trace st ++ [EPrint (LKeysExist output_dir)]
    /\ entry_of (EPrint (LKeysExist output_dir)) = [Outcome Skipped].
Proof.
  intros Hprivate Hpublic. eexists.
  rewrite generate_keys_skip by assumption.
  repeat split.
Qed.

Lemma provision_all_skipped (project_root : path) (locations : list string) :
  forall (st : state E) (success_count : nat),
    (forall location, In location locations ->
       both_present project_root (st_fs st) location = true) ->
    provision openssl bytes_decode project_root false locations success_count st =
    (Ok success_count,
     after (flat_map (fun location =>
                        [EPrint (LProcessing location);
                         EPrint (LKeysExist (project_root // location));
                         EPrint LBlank]) locations) (world st) st).
Proof.
  induction locations as [| location rest IH]; intros st success_count Hall.
  - simpl. unfold ret. now rewrite after_nil.
  - rewrite provision_cons.
    destruct (andb_prop _ _ (Hall location (or_introl eq_refl))) as [Hprivate Hpublic].
    rewrite generate_keys_skip by assumption.
    rewrite !world_of_after, IH.
    + rewrite !world_of_after, !after_after. reflexivity.
    + intros l Hl. apply Hall. now right.
Qed.

Lemma missing_none (project_root : path) (t : node) (locations : list string) :
  forallb (both_present project_root t) locations = true ->
  warnings project_root t locations = [].
Proof.
  unfold warnings, missing. induction locations as [| location rest IH]; simpl.
  - reflexivity.
  - intros [-> Hrest]%andb_prop. simpl. auto.
Qed.

Lemma main_all_skipped (argv : list string) (script_dir : path) (st : state E) :
  existsb (String.eqb "--force") argv = false ->
  (forall location, In location KEY_LOCATIONS ->
     both_present (find_project_root (st_fs st) script_dir) (st_fs st) location = true) ->
  main openssl bytes_decode argv script_dir st =
  (Ok 0%Z, after (skipped_run (find_project_root (st_fs st) script_dir)) (world st) st).
Proof.
  intros Hforce Hall. rewrite main_eq, Hforce. cbv zeta.
  rewrite provision_all_skipped by exact Hall.
  rewrite !world_of_after, !after_after.
  change (st_fs (after _ (world st) st)) with (st_fs st).
  assert (Hforall : forallb (both_present (find_project_root (st_fs st) script_dir)
                               (st_fs st)) KEY_LOCATIONS = true)
    by (apply forallb_forall; exact Hall).
  rewrite Hforall, missing_none by exact Hforall.
  reflexivity.
Qed.

(** C3. From a filesystem in which every configured location has both
    files, a run without [--force] reports [Skipped] for every location,
    does nothing but print, and leaves the filesystem (existence and
    content of every file) and the tool untouched; a second run from the
    state it leaves does exactly the same. *)
Theorem idempotence (argv : list string) (script_dir : path) (st : state E) :
  existsb (String.eqb "--force") argv = false ->
  (forall location, In location KEY_LOCATIONS ->
     both_present (find_project_root (st_fs st) script_dir) (st_fs st) location = true) ->
  exists evs st1 st2,
    main openssl bytes_decode argv script_dir st = (Ok 0%Z, st1)
    /\ st1 = after evs (world st) st
    /\ main openssl bytes_decode argv script_dir st1 = (Ok 0%Z, st2)
    /\ st2 = after evs (world st) st1
    /\ st_fs st1 = st_fs st /\ st_fs st2 = st_fs st
    /\ report evs = map (fun location => (location, Skipped)) KEY_LOCATIONS
    /\ (forall ev, In ev evs -> exists l, ev = EPrint l).
Proof.
  intros Hforce Hall.
  exists (skipped_run (find_project_root (st_fs st) script_dir)).
  eexists. eexists.
  split; [now apply main_all_skipped |].
  split; [reflexivity |].
  split; [| split; [reflexivity |]].
  - rewrite main_all_skipped by assumption. reflexivity.
  - repeat split.
    intros ev Hev. unfold skipped_run in Hev. simpl in Hev.
    repeat (destruct Hev as [<- | Hev]; [eexists; reflexivity |]).
    contradiction.
Qed.

(** A run that ends with exit code 0 has left every location complete,
    so the next run without [--force] skips every location, whatever the
    first run did, as long as the project root is found where it was. *)
Lemma second_run_skips (argv0 argv : list string) (script_dir : path)
  (st0 st1 : state E) :
  main openssl bytes_decode argv0 script_dir st0 = (Ok 0%Z, st1) ->
  find_project_root (st_fs st1) script_dir = find_project_root (st_fs st0) script_dir ->
  existsb (String.eqb "--force") argv = false ->
  main openssl bytes_decode argv script_dir st1 =
  (Ok 0%Z, after (skipped_run (find_project_root (st_fs st1) script_dir)) (world st1) st1).
Proof.
  intros Hfirst Hroot Hforce. apply main_all_skipped; [assumption |].
  rewrite Hroot. rewrite main_eq in Hfirst. cbv zeta in Hfirst.
  destruct (provision _ _ _ _ _ _ _) as [[success_count | x] st2]; [| discriminate].
  assert (Hcode :
    exit_code (forallb (both_present (find_project_root (st_fs st0) script_dir)
                          (st_fs st2)) KEY_LOCATIONS) = 0%Z
    /\ st_fs st1 = st_fs st2) by (injection Hfirst as Hc <-; split; [exact Hc | reflexivity]).
  destruct Hcode as [Hcode ->]. clear Hfirst.
  remember (forallb (both_present (find_project_root (st_fs st0) script_dir) (st_fs st2))
              KEY_LOCATIONS) as all_present eqn:Hall.
  destruct all_present; [| discriminate Hcode].
  symmetry in Hall. rewrite forallb_forall in Hall. exact Hall.
Qed.

(** *** Failures *)

(** C4 (as amended). When the tool fails for a location [A] in one of
    the two ways that [generate_keys] recovers from (a non-zero exit
    status with a standard error that is empty or can be decoded, or the
    tool not being found), so that the attempt at [A] ends in [Failed],
    and the attempt at a location [B] ends in [Generated], in whichever
    order the two come, [main] still runs the tool for [B] and its
    report shows [A] as [Failed] and [B] as [Generated]. *)
Theorem partial_failure_isolation (argv : list string) (script_dir : path)
  (st : state E) (os : list ProvisioningOutcome) (w' : E * node) (A B : string) :
  let force := existsb (String.eqb "--force") argv in
  let project_root := find_project_root (st_fs st) script_dir in
  attempts openssl bytes_decode project_root force KEY_LOCATIONS (world st) os w' ->
  In (A, Failed) (combine KEY_LOCATIONS os) ->
  In (B, Generated) (combine KEY_LOCATIONS os) ->
  exists code evs,
    main openssl bytes_decode argv script_dir st = (Ok code, after evs w' st)
    /\ In (A, Failed) (report evs)
    /\ In (B, Generated) (report evs)
    /\ In (ERun (genpkey_cmd (project_root // A // PRIVATE_KEY_NAME))) evs
    /\ In (ERun (genpkey_cmd (project_root // B // PRIVATE_KEY_NAME))) evs.
Proof.
  intros force project_root Hattempts HA HB.
  destruct (main_attempts argv script_dir st os w' Hattempts)
    as (evs & Hmain & Hreport & Hrun & _).
  exists (exit_code (forallb (both_present project_root (snd w')) KEY_LOCATIONS)), evs.
  split; [exact Hmain |]. rewrite Hreport.
  repeat split; try assumption; eapply Hrun; eauto; discriminate.
Qed.

(** The [except] clauses do nothing but print. *)
Lemma except_prints (x : exn) (h : M (state E) bool) :
  generate_keys_except E bytes_decode x = Some h ->
  forall st : state E, exists r evs, h st = (r, after evs (world st) st).
Proof.
  destruct x as [returncode cmd stderr | | | | |]; simpl; try discriminate.
  - intros [= <-] st. destruct stderr as [| b stderr'].
    + exists (Ok false), [EPrint (LErrFailed returncode cmd)]. reflexivity.
    + unfold bind, print, decode.
      destruct (bytes_decode (b :: stderr')) as [text |].
      * exists (Ok false), [EPrint (LErrFailed returncode cmd); EPrint (LStderr text)].
        unfold ret. now rewrite world_of_after, after_after.
      * exists (Raise UnicodeDecodeError), [EPrint (LErrFailed returncode cmd)].
        reflexivity.
  - intros [= <-] st. exists (Ok false), [EPrint LErrNoOpenssl]. reflexivity.
Qed.

Lemma catch_prints (x : exn) (st : state E) :
  exists r evs,
    match generate_keys_except E bytes_decode x with
    | Some h => h st
    | None => (Raise x, st)
    end = (r, after evs (world st) st).
Proof.
  destruct (generate_keys_except E bytes_decode x) as [h |] eqn:Hh.
  - exact (except_prints x h Hh st).
  - exists (Raise x), []. now rewrite after_nil.
Qed.

(** C5. With [force] set, a location that already has both files is not
    skipped: the directory is left as it is, the tool is run to generate
    the private key, then, if that succeeded, to derive the public key,
    and if that succeeded too [generate_keys] returns [True] with outcome
    [Generated]. *)
Theorem force_overwrite (output_dir : path) (st : state E) :
  FS.exists_ (output_dir // PRIVATE_KEY_NAME) (st_fs st) = true ->
  FS.exists_ (output_dir // PUBLIC_KEY_NAME) (st_fs st) = true ->
  let private_cmd := genpkey_cmd (output_dir // PRIVATE_KEY_NAME) in
  let public_cmd :=
    pubout_cmd (output_dir // PRIVATE_KEY_NAME) (output_dir // PUBLIC_KEY_NAME) in
  let private := openssl private_cmd (st_env st) (st_fs st) in
  let public :=
    openssl public_cmd (fst (world_after private)) (snd (world_after private)) in
  exists r st' evs,
    generate_keys openssl bytes_decode output_dir true st = (r, st')
    /\ st_trace st' = st_trace st ++ evs
    /\ In (ERun private_cmd) evs
    /\ (raised private_cmd private = None -> In (ERun public_cmd) evs)
    /\ (raised private_cmd private = None -> raised public_cmd public = None ->
        r = Ok true
        /\ world st' = world_after public
        /\ flat_map entry_of evs = [Outcome Generated]).
Proof.
  intros Hprivate Hpublic private_cmd public_cmd private public.
  rewrite generate_keys_unskipped by (rewrite Hprivate, Hpublic; reflexivity).
  rewrite joinpath_private in Hprivate.
  rewrite (mkdir_p_existing _ _ (exists_child_is_dir _ _ _ Hprivate)).
  cbv zeta. fold private_cmd public_cmd private.
  destruct (raised private_cmd private) as [x |] eqn:Hraised.
  - match goal with |- context [after ?l ?w st] => set (st1 := after l w st) end.
    destruct (catch_prints x st1) as (r & evs & ->).
    unfold st1. rewrite after_after.
    do 3 eexists. split; [reflexivity |]. split; [reflexivity |].
    split; [simpl; auto |]. split; discriminate.
  - fold public.
    destruct (raised public_cmd public) as [x |] eqn:Hpublic'.
    + match goal with |- context [after ?l ?w (after ?l' ?w' st)] =>
        set (st2 := after l w (after l' w' st)) end.
      destruct (catch_prints x st2) as (r & evs & ->).
      unfold st2. rewrite !after_after.
      do 3 eexists. split; [reflexivity |]. split; [reflexivity |].
      split; [simpl; auto |]. split; [intros _; simpl; auto 6 | discriminate].
    + rewrite world_of_after, !after_after.
      do 3 eexists. split; [reflexivity |]. split; [reflexivity |].
      split; [simpl; auto |]. split; [intros _; simpl; auto 6 |].
      intros _ _. split; [reflexivity |]. split; [| reflexivity].
      apply world_of_after.
Qed.


(** *** Completion *)

Lemma creatable_unblocked (project_root : path) (t : node) :
  creatable project_root t <->
  forall location, In location KEY_LOCATIONS ->
    FS.unblocked (project_root // location) t = true.
Proof.
  unfold creatable. split; intros H location Hin.
  - apply mkdir_p_unblocked. now apply H.
  - apply mkdir_p_unblocked. now apply H.
Qed.

Lemma mkdir_p_keeps_creatable (project_root p : path) (t t1 : node) :
  FS.mkdir_p p t = inl t1 -> creatable project_root t -> creatable project_root t1.
Proof.
  rewrite !creatable_unblocked. intros Hmkdir H location Hin.
  eapply mkdir_p_keeps_unblocked; eauto.
Qed.

Section Completion.

Variable project_root : path.
Variable force : bool.

(** On the command lines of the key directories, the tool fails only
    in the two ways that [generate_keys] recovers from, with a standard
    error that can be decoded. *)
Hypothesis tool_failures_recovered :
  forall args e t x,
    key_cmd project_root KEY_LOCATIONS args ->
    raised args (openssl args e t) = Some x -> recovered bytes_decode x.

(** On those command lines, the tool puts no regular file in the way of
    a key directory. *)
Hypothesis tool_keeps_creatable :
  forall args e t,
    key_cmd project_root KEY_LOCATIONS args ->
    creatable project_root t ->
    creatable project_root (snd (world_after (openssl args e t))).

Lemma attempt_total (location : string) (w : E * node) :
  In location KEY_LOCATIONS ->
  creatable project_root (snd w) ->
  exists o w',
    attempt openssl bytes_decode (project_root // location) force w o w'
    /\ creatable project_root (snd w').
Proof.
  destruct w as [e t]. cbn [snd]. intros Hin Hcreatable.
  set (output_dir := project_root // location).
  destruct (FS.exists_ (output_dir // PRIVATE_KEY_NAME) t
            && FS.exists_ (output_dir // PUBLIC_KEY_NAME) t && negb force) eqn:Hskip.
  - apply andb_prop in Hskip as [[Hprivate Hpublic]%andb_prop Hforce].
    exists Skipped, (e, t). split; [| assumption].
    apply attempt_skipped; try assumption. now destruct force.
  - destruct (Hcreatable location Hin) as [t1 Hmkdir]. fold output_dir in Hmkdir.
    pose proof (mkdir_p_keeps_creatable _ _ _ _ Hmkdir Hcreatable) as Hcreatable1.
    assert (Hkey_private : key_cmd project_root KEY_LOCATIONS
              (genpkey_cmd (output_dir // PRIVATE_KEY_NAME)))
      by (exists location; split; [exact Hin | left; reflexivity]).
    assert (Hkey_public : key_cmd project_root KEY_LOCATIONS
              (pubout_cmd (output_dir // PRIVATE_KEY_NAME) (output_dir // PUBLIC_KEY_NAME)))
      by (exists location; split; [exact Hin | right; reflexivity]).
    pose (private := openssl (genpkey_cmd (output_dir // PRIVATE_KEY_NAME)) e t1).
    pose proof (tool_keeps_creatable
                  (genpkey_cmd (output_dir // PRIVATE_KEY_NAME)) e t1
                  Hkey_private Hcreatable1)
      as Hcreatable2.
    destruct (raised (genpkey_cmd (output_dir // PRIVATE_KEY_NAME)) private)
      as [x |] eqn:Hprivate.
    + exists Failed, (world_after private). split; [| exact Hcreatable2].
      eapply attempt_failed_private; eauto.
    + pose (public := openssl
              (pubout_cmd (output_dir // PRIVATE_KEY_NAME) (output_dir // PUBLIC_KEY_NAME))
              (fst (world_after private)) (snd (world_after private))).
      pose proof (tool_keeps_creatable
                    (pubout_cmd (output_dir // PRIVATE_KEY_NAME)
                       (output_dir // PUBLIC_KEY_NAME))
                    (fst (world_after private)) _ Hkey_public Hcreatable2)
        as Hcreatable3.
      destruct (raised (pubout_cmd (output_dir // PRIVATE_KEY_NAME)
                          (output_dir // PUBLIC_KEY_NAME)) public) as [x |] eqn:Hpublic.
      * exists Failed, (world_after public). split; [| exact Hcreatable3].
        eapply attempt_failed_public; eauto.
      * exists Generated, (world_after public). split; [| exact Hcreatable3].
        eapply attempt_generated; eauto.
Qed.

Lemma attempts_total (locations : list string) :
  (forall location, In location locations -> In location KEY_LOCATIONS) ->
  forall w, creatable project_root (snd w) ->
    exists os w',
      attempts openssl bytes_decode project_root force locations w os w'
      /\ List.length os = List.length locations.
Proof.
  induction locations as [| location rest IH]; intros Hsub w Hcreatable.
  - exists [], w. split; [constructor | reflexivity].
  - destruct (attempt_total location w (Hsub _ (or_introl eq_refl)) Hcreatable)
      as (o & w1 & Hattempt & Hcreatable1).
    destruct (IH (fun l Hl => Hsub l (or_intror Hl)) w1 Hcreatable1)
      as (os & w2 & Hrest & Hlen).
    exists (o :: os), w2. split; [econstructor; eauto | simpl; now rewrite Hlen].
Qed.

End Completion.


End WorkflowProperties.

(** * Further properties *)

(** ** The root locator *)

Lemma walk_up_nearest (t : node) (d : path) :
  d <> [] ->
  FS.exists_ (d // "pom.xml") t = true ->
  forall (q : path) (fuel : nat),
    List.length (d ++ q) <= fuel ->
    (forall q1 q2, q = q1 ++ q2 -> q1 <> [] ->
       FS.exists_ ((d ++ q1) // "pom.xml") t = false) ->
    walk_up fuel t (d ++ q) = Some (Found d).
Proof.
  intros Hd Hmarker q.
  induction q as [| x q IH] using rev_ind; intros fuel Hfuel Hdeeper.
  - rewrite app_nil_r in *.
    destruct d as [| c p] using rev_ind; [congruence |].
    rewrite length_app in Hfuel. simpl in Hfuel.
    destruct fuel as [| fuel]; [lia |].
    now rewrite walk_up_snoc, Hmarker.
  - rewrite app_assoc in *. rewrite length_app in Hfuel. simpl in Hfuel.
    destruct fuel as [| fuel]; [lia |].
    rewrite walk_up_snoc, <- app_assoc.
    rewrite (Hdeeper (q ++ [x]) []) by (rewrite ?app_nil_r; auto; now destruct q).
    apply IH; [lia |].
    intros q1 q2 -> Hq1. apply (Hdeeper q1 (q2 ++ [x])); [| assumption].
    now rewrite app_assoc.
Qed.

(** X1. The locator returns the nearest marked directory: a directory of
    the walk that holds [pom.xml], while no directory of the walk deeper
    than it does, is the project root. *)
Theorem find_project_root_nearest (t : node) (script_dir d : path) :
  on_walk d script_dir ->
  FS.exists_ (d // "pom.xml") t = true ->
  (forall d', on_walk d' script_dir -> List.length d < List.length d' ->
     FS.exists_ (d' // "pom.xml") t = false) ->
  find_project_root t script_dir = d.
Proof.
  intros [Hd [q ->]] Hmarker Hdeeper.
  apply (find_project_root_walk t (d ++ q) (List.length (d ++ q)) (Found d) (le_n _)).
  apply walk_up_nearest; try assumption; [apply le_n |].
  intros q1 q2 -> Hq1. apply Hdeeper.
  - split; [now destruct d | exists q2; now rewrite app_assoc].
  - rewrite length_app. destruct q1; [congruence | simpl; lia].
Qed.

(** X2. The locator never leaves the ancestor chain: its result is either
    a directory of the walk that holds [pom.xml], or, when no directory
    of the walk holds it, the starting directory; so it is the
    filesystem root only for a script placed there. *)
Theorem find_project_root_on_chain (t : node) (script_dir : path) :
  ((on_walk (find_project_root t script_dir) script_dir
    /\ FS.exists_ (find_project_root t script_dir // "pom.xml") t = true)
   \/ (find_project_root t script_dir = script_dir
       /\ forall d, on_walk d script_dir -> FS.exists_ (d // "pom.xml") t = false))
  /\ (find_project_root t script_dir <> [] \/ script_dir = []).
Proof.
  destruct (walk_up_spec t script_dir _ (le_n _)) as [[d [Hw [Hd Hex]]] | [Hw Hno]];
    rewrite (find_project_root_walk t script_dir _ _ (le_n _) Hw).
  - split; [left; auto | left; exact (proj1 Hd)].
  - split; [right; auto |].
    destruct script_dir; [right; reflexivity | left; discriminate].
Qed.

Lemma walk_up_ext (t t' : node) (current : path) :
  forall fuel,
    (forall d, on_walk d current ->
       FS.exists_ (d // "pom.xml") t' = FS.exists_ (d // "pom.xml") t) ->
    walk_up fuel t' current = walk_up fuel t current.
Proof.
  induction current as [| c p IH] using rev_ind; intros fuel Hsame.
  - now rewrite !walk_up_root.
  - destruct fuel as [| fuel].
    + rewrite !walk_up_unfold, parent_snoc.
      now destruct (Path.eq_dec (p ++ [c]) p).
    + rewrite !walk_up_snoc, (Hsame _ (on_walk_self p c)).
      destruct (FS.exists_ ((p ++ [c]) // "pom.xml") t); [reflexivity |].
      apply IH. intros d Hd. apply Hsame. now apply on_walk_parent.
Qed.

(** X3. The locator looks at nothing but the presence of [pom.xml] in
    the directories of the walk: two filesystems that agree there give
    the same project root, whatever else differs (the filesystem root,
    other files, the key directories). *)
Theorem find_project_root_depends_on_markers (t t' : node) (script_dir : path) :
  (forall d, on_walk d script_dir ->
     FS.exists_ (d // "pom.xml") t' = FS.exists_ (d // "pom.xml") t) ->
  find_project_root t' script_dir = find_project_root t script_dir.
Proof.
  intros Hsame. unfold find_project_root. now rewrite (walk_up_ext t t').
Qed.

(** ** Directory creation *)

(** [mkdir] removes nothing and replaces no regular file: what a path
    led to before, it still leads to, and a regular file is the same
    file. *)
Lemma mkdir_p_keeps_lookup (q : path) :
  forall (p : path) (t t1 n : node),
    FS.mkdir_p q t = inl t1 ->
    FS.lookup p t = Some n ->
    exists n', FS.lookup p t1 = Some n'
               /\ forall content, n = FS.File content -> n' = FS.File content.
Proof.
  induction q as [| c q IH]; intros p [content | es] t1 n; simpl; try discriminate.
  - intros [= <-] Hp. eauto.
  - destruct (FS.assoc c es) as [m0 |] eqn:Hc.
    + destruct (FS.mkdir_p q m0) as [m0' | x] eqn:Hm; [| discriminate].
      intros [= <-]. destruct p as [| c' p]; simpl.
      * intros [= <-]. eexists. split; [reflexivity | discriminate].
      * rewrite assoc_set_entry.
        destruct (String.eqb c c') eqn:Hcc'; [| eauto].
        apply String.eqb_eq in Hcc' as <-. rewrite Hc. now apply IH.
    + intros [= <-]. destruct p as [| c' p]; simpl.
      * intros [= <-]. eexists. split; [reflexivity | discriminate].
      * rewrite assoc_snoc.
        destruct (FS.assoc c' es) as [m |]; [eauto | discriminate].
Qed.

Lemma mkdir_p_keeps_file (q p : path) (t t1 : node) (content : list byte) :
  FS.mkdir_p q t = inl t1 ->
  FS.lookup p t = Some (FS.File content) ->
  FS.lookup p t1 = Some (FS.File content).
Proof.
  intros Hmkdir Hp.
  destruct (mkdir_p_keeps_lookup q p t t1 _ Hmkdir Hp) as (n' & -> & Hfile).
  now rewrite (Hfile content eq_refl).
Qed.

Lemma mkdir_p_keeps_exists (q p : path) (t t1 : node) :
  FS.mkdir_p q t = inl t1 ->
  FS.exists_ p t = true -> FS.exists_ p t1 = true.
Proof.
  unfold FS.exists_. intros Hmkdir Hp.
  destruct (FS.lookup p t) as [n |] eqn:Hn; [| discriminate].
  now destruct (mkdir_p_keeps_lookup q p t t1 n Hmkdir Hn) as (n' & -> & _).
Qed.

Lemma is_dir_fresh_dirs (p : path) : FS.is_dir p (FS.fresh_dirs p) = true.
Proof.
  unfold FS.is_dir. induction p as [| c p IH]; simpl; [reflexivity |].
  now rewrite String.eqb_refl.
Qed.

(** After [mkdir] the directory is there. *)
Lemma mkdir_p_is_dir (p : path) :
  forall t t1 : node, FS.mkdir_p p t = inl t1 -> FS.is_dir p t1 = true.
Proof.
  unfold FS.is_dir.
  induction p as [| c p IH]; intros [content | es] t1; simpl; try discriminate.
  - now intros [= <-].
  - destruct (FS.assoc c es) as [m |] eqn:Hc.
    + destruct (FS.mkdir_p p m) as [m' | x] eqn:Hm; [| discriminate].
      intros [= <-]. simpl. rewrite assoc_set_entry, String.eqb_refl.
      exact (IH _ _ Hm).
    + intros [= <-]. simpl. rewrite assoc_snoc, Hc, String.eqb_refl.
      apply is_dir_fresh_dirs.
Qed.

(** ** One call of [generate_keys] *)

Section WorkflowEffects.

Variable E : Type.
Variable openssl : list string -> E -> node -> spawned E.
Variable bytes_decode : list byte -> option string.

(** What the [except] clauses make of an exception: a recovered one is
    reported and becomes the return value [False]; one of another kind
    goes on; a [CalledProcessError] whose standard error cannot be
    decoded is replaced by a [UnicodeDecodeError]. *)
Lemma catch_cases (x : exn) (st : state E) :
  let r :=
    match generate_keys_except E bytes_decode x with
    | Some h => h st
    | None => (Raise x, st)
    end in
  (recovered bytes_decode x
   /\ exists evs,
        r = (Ok false, after evs (world st) st)
        /\ flat_map entry_of evs = [Outcome Failed]
        /\ runs evs = [] /\ flagged evs = [])
  \/ (uncaught x /\ r = (Raise x, st))
  \/ (exists returncode cmd stderr,
        x = CalledProcessError returncode cmd stderr
        /\ stderr <> [] /\ bytes_decode stderr = None
        /\ r = (Raise UnicodeDecodeError,
                after [EPrint (LErrFailed returncode cmd)] (world st) st)).
Proof.
  cbv zeta. destruct x as [returncode cmd stderr | | | | |]; simpl;
    try (right; left; split; [exact I | reflexivity]).
  - destruct stderr as [| b stderr'].
    + left. split; [now left |].
      exists [EPrint (LErrFailed returncode cmd)]. repeat split.
    + unfold bind, print, decode.
      destruct (bytes_decode (b :: stderr')) as [text |] eqn:Htext.
      * left. split; [right; congruence |].
        exists [EPrint (LErrFailed returncode cmd); EPrint (LStderr text)].
        unfold ret. rewrite world_of_after, after_after. repeat split.
      * right. right. exists returncode, cmd, (b :: stderr').
        repeat split; [discriminate | assumption].
  - left. split; [exact I |]. exists [EPrint LErrNoOpenssl]. repeat split.
Qed.

Lemma skips_true (output_dir : path) (force : bool) (t : node) :
  skips output_dir force t = true ->
  FS.exists_ (output_dir // PRIVATE_KEY_NAME) t = true
  /\ FS.exists_ (output_dir // PUBLIC_KEY_NAME) t = true
  /\ force = false.
Proof.
  unfold skips. intros [[H1 H2]%andb_prop H3]%andb_prop.
  repeat split; try assumption. now destruct force.
Qed.

Lemma runs_app (evs evs' : list event) : runs (evs ++ evs') = runs evs ++ runs evs'.
Proof. apply flat_map_app. Qed.

Lemma flagged_app (evs evs' : list event) :
  flagged (evs ++ evs') = flagged evs ++ flagged evs'.
Proof. apply flat_map_app. Qed.

(** The state that one call of [generate_keys] leaves and the command
    lines it runs, whether it returns or raises. *)
Lemma generate_keys_state (output_dir : path) (force : bool) (st : state E) :
  exists evs,
    snd (generate_keys openssl bytes_decode output_dir force st)
      = after evs (last_world openssl output_dir force (world st)) st
    /\ runs evs = tool_runs openssl output_dir force (world st)
    /\ flagged evs = [].
Proof.
  unfold last_world, tool_runs, world. cbn [fst snd].
  destruct (skips output_dir force (st_fs st)) eqn:Hskip.
  - destruct (skips_true _ _ _ Hskip) as (Hprivate & Hpublic & ->).
    rewrite generate_keys_skip by assumption.
    exists [EPrint (LKeysExist output_dir)]. repeat split.
  - rewrite generate_keys_unskipped by exact Hskip.
    destruct (FS.mkdir_p output_dir (st_fs st)) as [t1 | x].
    + cbv zeta.
      set (private_cmd := genpkey_cmd (output_dir // PRIVATE_KEY_NAME)).
      set (public_cmd := pubout_cmd _ _).
      set (private := openssl private_cmd (st_env st) t1).
      destruct (raised private_cmd private) as [x |].
      * match goal with |- context [after ?l ?w st] => set (st1 := after l w st) end.
        destruct (catch_cases x st1)
          as [(_ & evs' & Hr & _ & Hruns & Hflagged)
             | [(_ & Hr) | (rc & cmd & err & _ & _ & _ & Hr)]];
          cbv zeta in Hr; rewrite Hr; unfold st1; cbn [snd];
          rewrite ?world_of_after, ?after_after.
        -- eexists. split; [reflexivity |]. split.
           ++ rewrite !runs_app, Hruns. reflexivity.
           ++ rewrite !flagged_app, Hflagged. reflexivity.
        -- eexists. repeat split.
        -- eexists. repeat split.
      * set (public := openssl public_cmd _ _).
        destruct (raised public_cmd public) as [x |].
        -- match goal with |- context [after ?l ?w (after ?l' ?w' st)] =>
             set (st2 := after l w (after l' w' st)) end.
           destruct (catch_cases x st2)
             as [(_ & evs' & Hr & _ & Hruns & Hflagged)
                | [(_ & Hr) | (rc & cmd & err & _ & _ & _ & Hr)]];
             cbv zeta in Hr; rewrite Hr; unfold st2; cbn [snd];
             rewrite ?world_of_after, ?after_after.
           ++ eexists. split; [reflexivity |]. split.
              ** rewrite !runs_app, Hruns. reflexivity.
              ** rewrite !flagged_app, Hflagged. reflexivity.
           ++ eexists. repeat split.
           ++ eexists. repeat split.
        -- cbn [snd]. rewrite world_of_after, !after_after.
           eexists. repeat split.
    + cbn [snd]. exists [EMkdir output_dir]. repeat split.
Qed.

(** X4. The effects of one call of [generate_keys], whether it returns
    or raises: the state it leaves is the initial one with more events
    and the world of [last_world] (nothing is rolled back and nothing
    else is touched), and the command lines it runs are those of
    [tool_runs]: none on the skip path or when [mkdir] raises, the
    private key generation alone when that fails, and otherwise the
    private key generation followed by the public key derivation. *)
Theorem generate_keys_effects (output_dir : path) (force : bool) (st : state E) :
  exists evs,
    snd (generate_keys openssl bytes_decode output_dir force st)
      = after evs (last_world openssl output_dir force (world st)) st
    /\ runs evs = tool_runs openssl output_dir force (world st)
    /\ flagged evs = [].
Proof. exact (generate_keys_state output_dir force st). Qed.

(** A normal return of [generate_keys] is an attempt with its outcome. *)
Lemma generate_keys_sound (output_dir : path) (force : bool)
  (st st' : state E) (b : bool) :
  generate_keys openssl bytes_decode output_dir force st = (Ok b, st') ->
  exists o evs,
    attempt openssl bytes_decode output_dir force (world st) o (world st')
    /\ b = is_generated o
    /\ st' = after evs (world st') st
    /\ flat_map entry_of evs = [Outcome o].
Proof.
  intros Hgk.
  destruct (skips output_dir force (st_fs st)) eqn:Hskip.
  - destruct (skips_true _ _ _ Hskip) as (Hprivate & Hpublic & ->).
    rewrite generate_keys_skip in Hgk by assumption.
    injection Hgk as <- <-. rewrite world_of_after.
    exists Skipped, [EPrint (LKeysExist output_dir)].
    split; [now apply attempt_skipped |]. repeat split.
  - rewrite generate_keys_unskipped in Hgk by exact Hskip.
    destruct (FS.mkdir_p output_dir (st_fs st)) as [t1 | x] eqn:Hmkdir;
      [| discriminate].
    cbv zeta in Hgk.
    set (private_cmd := genpkey_cmd (output_dir // PRIVATE_KEY_NAME)) in *.
    set (public_cmd := pubout_cmd _ _) in *.
    set (private := openssl private_cmd (st_env st) t1) in *.
    destruct (raised private_cmd private) as [x |] eqn:Hprivate.
    + match type of Hgk with context [after ?l ?w st] => set (st1 := after l w st) in * end.
      destruct (catch_cases x st1)
        as [(Hrec & evs' & Hr & Hentries & _)
           | [(_ & Hr) | (rc & cmd & err & _ & _ & _ & Hr)]];
        cbv zeta in Hr; rewrite Hr in Hgk; try discriminate.
      injection Hgk as <- <-. unfold st1.
      rewrite !world_of_after, !after_after.
      exists Failed. eexists.
      split; [eapply attempt_failed_private; eauto |].
      split; [reflexivity |]. split; [reflexivity | exact Hentries].
    + set (public := openssl public_cmd _ _) in *.
      destruct (raised public_cmd public) as [x |] eqn:Hpublic.
      * match type of Hgk with context [after ?l ?w (after ?l' ?w' st)] =>
          set (st2 := after l w (after l' w' st)) in * end.
        destruct (catch_cases x st2)
          as [(Hrec & evs' & Hr & Hentries & _)
             | [(_ & Hr) | (rc & cmd & err & _ & _ & _ & Hr)]];
          cbv zeta in Hr; rewrite Hr in Hgk; try discriminate.
        injection Hgk as <- <-. unfold st2.
        rewrite !world_of_after, !after_after.
        exists Failed. eexists.
        split; [eapply attempt_failed_public; eauto |].
        split; [reflexivity |]. split; [reflexivity | exact Hentries].
      * injection Hgk as <- <-.
        rewrite !world_of_after, !after_after.
        exists Generated. eexists.
        split; [eapply attempt_generated; eauto |].
        repeat split.
Qed.

Lemma recovered_not_uncaught (x : exn) :
  recovered bytes_decode x -> uncaught x -> False.
Proof. destruct x; simpl; tauto. Qed.

Lemma recovered_decodable (returncode : Z) (cmd : list string) (stderr : list byte) :
  recovered bytes_decode (CalledProcessError returncode cmd stderr) ->
  stderr <> [] -> bytes_decode stderr = None -> False.
Proof. simpl. intros [-> | Hdec] Hne Hnone; congruence. Qed.

(** What the handler makes of a fault. *)
Lemma catch_fault (x y : exn) (st : state E) :
  (uncaught y /\ x = y)
  \/ (x = UnicodeDecodeError
      /\ exists returncode cmd stderr,
           y = CalledProcessError returncode cmd stderr
           /\ stderr <> [] /\ bytes_decode stderr = None) ->
  fst (match generate_keys_except E bytes_decode y with
       | Some h => h st
       | None => (Raise y, st)
       end) = Raise x.
Proof.
  intros Hkind.
  destruct (catch_cases y st)
    as [(Hrec & _) | [(Hun & Hr) | (rc & cmd & err & -> & Hne & Hdec & Hr)]];
    cbv zeta in *.
  - exfalso. destruct Hkind as [(Hun & _) | (_ & rc & cmd & err & -> & Hne & Hdec)].
    + exact (recovered_not_uncaught y Hrec Hun).
    + exact (recovered_decodable rc cmd err Hrec Hne Hdec).
  - rewrite Hr. destruct Hkind as [(_ & ->) | (_ & rc & cmd & err & -> & _)];
      [reflexivity | contradiction].
  - rewrite Hr. destruct Hkind as [(Hun & _) | (-> & _)];
      [contradiction | reflexivity].
Qed.

(** X6. What [generate_keys] does not catch.  In a call that is not
    skipped, an exception raised by [mkdir] leaves [generate_keys] as it
    is (the call sits before the [try] block); so does an exception
    raised by either invocation of the tool that is neither a
    [CalledProcessError] nor a [FileNotFoundError]; and a
    [CalledProcessError] whose standard error is not empty and cannot be
    decoded leaves it as the [UnicodeDecodeError] raised inside the
    handler. *)
Theorem generate_keys_lets_through (output_dir : path) (force : bool)
  (st : state E) (x : exn) :
  skips output_dir force (st_fs st) = false ->
  lets_through openssl bytes_decode output_dir (world st) x ->
  fst (generate_keys openssl bytes_decode output_dir force st) = Raise x.
Proof.
  intros Hskip Hfault. unfold lets_through, world in Hfault. cbn [fst snd] in Hfault.
  rewrite generate_keys_unskipped by exact Hskip.
  destruct (FS.mkdir_p output_dir (st_fs st)) as [t1 | x0]; [| now subst x0].
  cbv zeta in *. destruct Hfault as (y & Hraised & Hkind).
  destruct Hraised as [Hprivate | [Hprivate Hpublic]].
  - rewrite Hprivate. now apply catch_fault.
  - rewrite Hprivate, Hpublic. now apply catch_fault.
Qed.

(** X5. Every normal return of [generate_keys] is one of the three
    outcomes: the call has carried out an attempt whose outcome is the
    one it printed, it leaves the world of that attempt, and it returns
    [True] exactly when the outcome is [Generated], that is, only after
    both invocations of the tool have completed with status 0. *)
Theorem generate_keys_returns (output_dir : path) (force : bool)
  (st st' : state E) (b : bool) :
  generate_keys openssl bytes_decode output_dir force st = (Ok b, st') ->
  exists o evs,
    attempt openssl bytes_decode output_dir force (world st) o (world st')
    /\ b = is_generated o
    /\ st' = after evs (world st') st
    /\ flat_map entry_of evs = [Outcome o].
Proof. exact (generate_keys_sound output_dir force st st' b). Qed.

(** ** The loops and [main], for every run *)

Section Invariant.

(** A property of the filesystem that directory creation preserves, and
    that the tool preserves when it is run on the command lines of the
    key directories. *)
Variable I : node -> Prop.
Variable project_root : path.

Hypothesis mkdir_keeps :
  forall p t t1, FS.mkdir_p p t = inl t1 -> I t -> I t1.

Hypothesis tool_keeps :
  forall args e t,
    key_cmd project_root KEY_LOCATIONS args ->
    I t -> I (snd (world_after (openssl args e t))).

Lemma last_world_invariant (location : string) (force : bool) (w : E * node) :
  In location KEY_LOCATIONS ->
  I (snd w) -> I (snd (last_world openssl (project_root // location) force w)).
Proof.
  intros Hin Hw. unfold last_world.
  destruct (skips _ force (snd w)); [assumption |].
  destruct (FS.mkdir_p _ (snd w)) as [t1 | x] eqn:Hmkdir; [| assumption].
  cbv zeta. pose proof (mkdir_keeps _ _ _ Hmkdir Hw) as H1.
  assert (Hprivate : forall e t, I t ->
            I (snd (world_after
                      (openssl (genpkey_cmd (project_root // location // PRIVATE_KEY_NAME))
                         e t)))).
  { intros e t. apply tool_keeps. exists location. auto. }
  assert (Hpublic : forall e t, I t ->
            I (snd (world_after
                      (openssl (pubout_cmd (project_root // location // PRIVATE_KEY_NAME)
                                  (project_root // location // PUBLIC_KEY_NAME)) e t)))).
  { intros e t. apply tool_keeps. exists location. auto. }
  destruct (raised _ _); auto.
Qed.

Lemma generate_keys_invariant (location : string) (force : bool) (st : state E) :
  In location KEY_LOCATIONS ->
  I (st_fs st) ->
  I (st_fs (snd (generate_keys openssl bytes_decode (project_root // location) force st))).
Proof.
  intros Hin Hst.
  destruct (generate_keys_state (project_root // location) force st) as (evs & -> & _).
  cbn [st_fs after]. now apply last_world_invariant.
Qed.

Lemma provision_invariant (force : bool) (locations : list string) :
  (forall location, In location locations -> In location KEY_LOCATIONS) ->
  forall (st : state E) (success_count : nat),
    I (st_fs st) ->
    I (st_fs (snd (provision openssl bytes_decode project_root force locations
                     success_count st))).
Proof.
  induction locations as [| location rest IH]; intros Hsub st success_count Hst.
  - exact Hst.
  - rewrite provision_cons.
    pose proof (generate_keys_invariant location force
                  (after [EPrint (LProcessing location)] (world st) st)
                  (Hsub _ (or_introl eq_refl)) Hst) as Hgk.
    destruct (generate_keys _ _ _ _ _) as [[generated | x] st']; cbn [snd] in *.
    + apply IH; [intros l Hl; apply Hsub; now right | exact Hgk].
    + exact Hgk.
Qed.

Lemma main_invariant (argv : list string) (script_dir : path) (st : state E) :
  find_project_root (st_fs st) script_dir = project_root ->
  I (st_fs st) ->
  I (st_fs (snd (main openssl bytes_decode argv script_dir st))).
Proof.
  intros Hroot Hst. rewrite main_eq, Hroot. cbv zeta.
  match goal with |- context [provision _ _ project_root ?f ?l ?n ?s] =>
    pose proof (provision_invariant f l (fun _ H => H) s n Hst) as Hp;
    destruct (provision _ _ project_root f l n s) as [[success_count | x] st2]
  end; exact Hp.
Qed.

End Invariant.

(** X7. [main] deletes nothing and rewrites nothing by itself: a regular
    file that the tool, run on the command lines of the configured key
    directories, neither removes nor changes is in the final filesystem
    with the content it had, whether [main] returns or raises.  Nothing
    is asked of the tool on other command lines. *)
Theorem main_keeps_files (argv : list string) (script_dir : path) (st : state E)
  (p : path) (content : list byte) :
  (forall args e t,
     key_cmd (find_project_root (st_fs st) script_dir) KEY_LOCATIONS args ->
     FS.lookup p t = Some (FS.File content) ->
     FS.lookup p (snd (world_after (openssl args e t))) = Some (FS.File content)) ->
  FS.lookup p (st_fs st) = Some (FS.File content) ->
  FS.lookup p (st_fs (snd (main openssl bytes_decode argv script_dir st)))
    = Some (FS.File content).
Proof.
  intros Htool Hst.
  apply (main_invariant (fun t => FS.lookup p t = Some (FS.File content))
           (find_project_root (st_fs st) script_dir));
    try assumption; [| reflexivity].
  intros q t t1 Hmkdir Ht. exact (mkdir_p_keeps_file q p t t1 content Hmkdir Ht).
Qed.

Lemma key_cmd_incl (project_root : path) (locations locations' : list string)
  (args : list string) :
  (forall location, In location locations -> In location locations') ->
  key_cmd project_root locations args -> key_cmd project_root locations' args.
Proof. intros Hincl (location & Hin & Hargs). exists location. auto. Qed.

Lemma tool_runs_key_cmd (project_root : path) (location : string) (force : bool)
  (w : E * node) :
  Forall (key_cmd project_root [location])
    (tool_runs openssl (project_root // location) force w)
  /\ List.length (tool_runs openssl (project_root // location) force w) <= 2.
Proof.
  assert (Hprivate : key_cmd project_root [location]
            (genpkey_cmd (project_root // location // PRIVATE_KEY_NAME)))
    by (exists location; simpl; auto).
  assert (Hpublic : key_cmd project_root [location]
            (pubout_cmd (project_root // location // PRIVATE_KEY_NAME)
               (project_root // location // PUBLIC_KEY_NAME)))
    by (exists location; simpl; auto).
  unfold tool_runs.
  destruct (skips _ _ _); [split; [constructor | simpl; lia] |].
  destruct (FS.mkdir_p _ _); [| split; [constructor | simpl; lia]].
  cbv zeta. destruct (raised _ _); split; repeat constructor; assumption.
Qed.

(** The first loop runs no command line but those of its locations, at
    most two for each, and flags nothing. *)
Lemma provision_effects (project_root : path) (force : bool)
  (locations : list string) :
  forall (st : state E) (success_count : nat),
    exists evs,
      st_trace (snd (provision openssl bytes_decode project_root force locations
                       success_count st)) = st_trace st ++ evs
      /\ Forall (key_cmd project_root locations) (runs evs)
      /\ List.length (runs evs) <= 2 * List.length locations
      /\ flagged evs = [].
Proof.
  induction locations as [| location rest IH]; intros st success_count.
  - exists []. simpl. rewrite app_nil_r. repeat split; auto.
  - rewrite provision_cons.
    set (st0 := after [EPrint (LProcessing location)] (world st) st).
    destruct (generate_keys_state (project_root // location) force st0)
      as (evs1 & Hst1 & Hruns1 & Hflagged1).
    destruct (tool_runs_key_cmd project_root location force (world st0))
      as [Hkey1 Hlen1].
    rewrite <- Hruns1 in Hkey1, Hlen1.
    assert (Hkey1' : Forall (key_cmd project_root (location :: rest)) (runs evs1)).
    { eapply Forall_impl; [| exact Hkey1].
      intros args. apply key_cmd_incl. intros l [<- | []]. now left. }
    destruct (generate_keys _ _ _ _ st0) as [[generated | x] st1]; cbn [snd] in Hst1.
    + destruct (IH (after [EPrint LBlank] (world st1) st1)
                  (if generated then S success_count else success_count))
        as (evs2 & -> & Hkey2 & Hlen2 & Hflagged2).
      subst st1. unfold st0. cbn [st_trace after].
      exists ([EPrint (LProcessing location)] ++ evs1 ++ [EPrint LBlank] ++ evs2).
      split; [now rewrite <- !app_assoc |].
      rewrite !runs_app, !flagged_app, Hflagged1, Hflagged2.
      cbn [runs flagged flat_map app]. rewrite length_app.
      split; [| split; [simpl in *; lia | reflexivity]].
      apply Forall_app. split; [assumption |].
      eapply Forall_impl; [| exact Hkey2].
      intros args. apply key_cmd_incl. intros l Hl. now right.
    + cbn [snd]. subst st1. unfold st0. cbn [st_trace after].
      exists ([EPrint (LProcessing location)] ++ evs1).
      split; [now rewrite <- !app_assoc |].
      rewrite !runs_app, !flagged_app, Hflagged1.
      cbn [runs flagged flat_map app].
      split; [assumption | split; [simpl in *; lia | reflexivity]].
Qed.

Lemma flagged_warnings (project_root : path) (t : node) (locations : list string) :
  flagged (warnings project_root t locations) = missing project_root t locations.
Proof.
  unfold warnings. induction (missing project_root t locations) as [| l ls IH];
    simpl; [reflexivity |]. now f_equal.
Qed.

Lemma runs_warnings (project_root : path) (t : node) (locations : list string) :
  runs (warnings project_root t locations) = [].
Proof.
  unfold warnings. induction (missing project_root t locations); simpl; auto.
Qed.

Lemma flagged_summary (success_count : nat) :
  flagged [EPrint (summary success_count)] = [].
Proof. unfold summary. now destruct (0 <? success_count)%nat. Qed.

Lemma flagged_verdict (all_present : bool) : flagged [EPrint (verdict all_present)] = [].
Proof. now destruct all_present. Qed.

Lemma tool_runs_location (project_root : path) (location : string) (force : bool)
  (w : E * node) :
  location_runs project_root location
    (tool_runs openssl (project_root // location) force w).
Proof.
  unfold tool_runs, location_runs.
  destruct (skips _ _ _); [auto |].
  destruct (FS.mkdir_p _ _); [| auto].
  cbv zeta. destruct (raised _ _); auto.
Qed.

(** The command lines of the first loop, location by location: the loop
    goes through the locations in order, each accounts for one block of
    at most two command lines, and a raise ends the list of blocks. *)
Lemma provision_blocks (project_root : path) (force : bool)
  (locations : list string) :
  forall (st : state E) (success_count : nat),
    exists evs blocks,
      st_trace (snd (provision openssl bytes_decode project_root force locations
                       success_count st)) = st_trace st ++ evs
      /\ runs evs = List.concat blocks
      /\ Forall2 (location_runs project_root)
           (firstn (List.length blocks) locations) blocks.
Proof.
  induction locations as [| location rest IH]; intros st success_count.
  - exists [], []. simpl. rewrite app_nil_r. repeat split. constructor.
  - rewrite provision_cons.
    set (st0 := after [EPrint (LProcessing location)] (world st) st).
    destruct (generate_keys_state (project_root // location) force st0)
      as (evs1 & Hst1 & Hruns1 & _).
    pose proof (tool_runs_location project_root location force (world st0)) as Hblock.
    rewrite <- Hruns1 in Hblock.
    destruct (generate_keys _ _ _ _ st0) as [[generated | x] st1]; cbn [snd] in Hst1.
    + destruct (IH (after [EPrint LBlank] (world st1) st1)
                  (if generated then S success_count else success_count))
        as (evs2 & blocks & -> & Hruns2 & Hblocks).
      subst st1. unfold st0. cbn [st_trace after].
      exists ([EPrint (LProcessing location)] ++ evs1 ++ [EPrint LBlank] ++ evs2),
             (runs evs1 :: blocks).
      split; [now rewrite <- !app_assoc |]. split.
      * rewrite !runs_app, Hruns2. reflexivity.
      * cbn [List.length firstn]. now constructor.
    + cbn [snd]. subst st1. unfold st0. cbn [st_trace after].
      exists ([EPrint (LProcessing location)] ++ evs1), [runs evs1].
      split; [now rewrite <- !app_assoc |]. split.
      * rewrite !runs_app. cbn [runs flat_map app List.concat]. now rewrite app_nil_r.
      * cbn [List.length firstn]. constructor; [exact Hblock | constructor].
Qed.

(** X8. In every run of [main], returning or raising, the command lines
    that are run split into one block for each location reached, in the
    configured order, and the block of a location is empty, or its
    private key generation, or its private key generation followed by
    its public key derivation: at most two command lines for each
    configured location, none of them foreign to the configured key
    directories under the project root. *)
Theorem main_runs_only_key_commands (argv : list string) (script_dir : path)
  (st : state E) :
  let project_root := find_project_root (st_fs st) script_dir in
  exists evs blocks,
    st_trace (snd (main openssl bytes_decode argv script_dir st)) = st_trace st ++ evs
    /\ runs evs = List.concat blocks
    /\ Forall2 (location_runs project_root)
         (firstn (List.length blocks) KEY_LOCATIONS) blocks
    /\ Forall (key_cmd project_root KEY_LOCATIONS) (runs evs)
    /\ List.length (runs evs) <= 2 * List.length KEY_LOCATIONS.
Proof.
  intros project_root. rewrite main_eq. fold project_root. cbv zeta.
  match goal with |- context [provision _ _ ?r ?f ?l ?n ?s] =>
    destruct (provision_effects r f l s n) as (evs & Hevs & Hkey & Hlen & _);
    destruct (provision_blocks r f l s n) as (evs' & blocks & Hevs' & Hruns & Hblocks);
    destruct (provision _ _ r f l n s) as [[success_count | x] st2]
  end; cbn [snd] in *;
    (assert (evs' = evs) as -> by
        (rewrite Hevs in Hevs'; now apply app_inv_head in Hevs'));
    cbn [st_trace after]; rewrite Hevs; cbn [st_trace after].
  - eexists. exists blocks. split; [rewrite <- !app_assoc; reflexivity |].
    rewrite !runs_app, runs_warnings.
    cbn [runs flat_map app]. rewrite app_nil_r. auto.
  - eexists. exists blocks. split; [rewrite <- !app_assoc; reflexivity |].
    rewrite !runs_app. cbn [runs flat_map app]. auto.
Qed.

(** X9. When [main] returns, the locations it has flagged as missing
    are exactly the configured locations that lack the private or the
    public key file in the final filesystem, each once and in the
    configured order. *)
Theorem flagged_are_the_missing (argv : list string) (script_dir : path)
  (st st' : state E) (code : Z) :
  main openssl bytes_decode argv script_dir st = (Ok code, st') ->
  exists evs,
    st_trace st' = st_trace st ++ evs
    /\ flagged evs
       = missing (find_project_root (st_fs st) script_dir) (st_fs st') KEY_LOCATIONS.
Proof.
  rewrite main_eq. cbv zeta.
  match goal with |- context [provision _ _ ?r ?f ?l ?n ?s] =>
    destruct (provision_effects r f l s n) as (evs & Hevs & _ & _ & Hflagged);
    destruct (provision _ _ r f l n s) as [[success_count | x] st2]
  end; [| discriminate].
  cbn [snd] in Hevs. intros Hmain. apply (f_equal snd) in Hmain.
  cbn [snd] in Hmain. subst st'. cbn [st_trace st_fs after snd world].
  rewrite Hevs. cbn [st_trace after].
  eexists. split; [rewrite <- !app_assoc; reflexivity |].
  rewrite !flagged_app, Hflagged, flagged_warnings, flagged_verdict.
  change (flagged [EPrint LRule; EPrint (summary success_count)])
    with (flagged [EPrint (summary success_count)]).
  rewrite flagged_summary. cbn [flagged flat_map app]. now rewrite app_nil_r.
Qed.

(** ** Returning runs *)

Lemma provision_returns (project_root : path) (force : bool)
  (locations : list string) :
  forall (st st' : state E) (success_count n : nat),
    provision openssl bytes_decode project_root force locations success_count st
      = (Ok n, st') ->
    exists os,
      attempts openssl bytes_decode project_root force locations (world st) os (world st')
      /\ List.length os = List.length locations
      /\ n = success_count + List.length (filter is_generated os).
Proof.
  induction locations as [| location rest IH]; intros st st' success_count n Hp.
  - injection Hp as <- <-. exists []. split; [constructor |]. simpl. auto.
  - rewrite provision_cons in Hp.
    destruct (generate_keys _ _ _ _ _) as [[generated | x] st1] eqn:Hgk;
      [| discriminate].
    destruct (generate_keys_sound _ _ _ _ _ Hgk) as (o & evs & Hattempt & -> & _).
    rewrite world_of_after in Hattempt.
    destruct (IH _ _ _ _ Hp) as (os & Hrest & Hlen & ->).
    rewrite world_of_after in Hrest.
    exists (o :: os). split; [econstructor; eauto |].
    split; [simpl; now rewrite Hlen |].
    simpl. destruct (is_generated o); simpl; lia.
Qed.

Lemma count_generated_combine (locations : list string) :
  forall os : list ProvisioningOutcome,
    List.length os = List.length locations ->
    List.length (filter (fun lo => is_generated (snd lo)) (combine locations os))
    = List.length (filter is_generated os).
Proof.
  induction locations as [| location rest IH]; intros [| o os] Hlen;
    simpl in *; try discriminate; [reflexivity |].
  destruct (is_generated o); simpl; rewrite IH by lia; reflexivity.
Qed.

Lemma map_fst_combine (locations : list string) :
  forall os : list ProvisioningOutcome,
    List.length os = List.length locations ->
    map fst (combine locations os) = locations.
Proof.
  induction locations as [| location rest IH]; intros [| o os] Hlen;
    simpl in *; try discriminate; [reflexivity |].
  now rewrite IH by lia.
Qed.

(** A returning run of [main], in full. *)
Lemma main_returns (argv : list string) (script_dir : path) (st st' : state E)
  (code : Z) :
  main openssl bytes_decode argv script_dir st = (Ok code, st') ->
  let force := existsb (String.eqb "--force") argv in
  let project_root := find_project_root (st_fs st) script_dir in
  exists os evs,
    attempts openssl bytes_decode project_root force KEY_LOCATIONS (world st) os (world st')
    /\ List.length os = List.length KEY_LOCATIONS
    /\ st_trace st' = st_trace st ++ evs
    /\ report evs = combine KEY_LOCATIONS os
    /\ In (EPrint (summary (List.length (filter is_generated os)))) evs.
Proof.
  intros Hmain force project_root. rewrite main_eq in Hmain.
  fold force project_root in Hmain. cbv zeta in Hmain.
  set (st1 := after _ (world st) st) in Hmain.
  destruct (provision _ _ _ _ _ _ st1) as [[success_count | x] st2] eqn:Hp;
    [| discriminate].
  destruct (provision_returns _ _ _ _ _ _ _ Hp) as (os & Hattempts & Hlen & ->).
  destruct (provision_attempts E openssl bytes_decode _ _ _ _ _ _ Hattempts st1 0 eq_refl)
    as (evs & Hp' & Hentries & _).
  rewrite Hp in Hp'. apply (f_equal snd) in Hp'. cbn [snd] in Hp'.
  apply (f_equal (@st_trace E)) in Hp'. cbn [st_trace after] in Hp'.
  apply (f_equal snd) in Hmain. cbn [snd] in Hmain. subst st'.
  rewrite world_of_after. unfold st1 in Hattempts. rewrite world_of_after in Hattempts.
  cbn [Nat.add] in *.
  exists os.
  exists ([EPrint LBanner; EPrint LRule; EPrint (LProjectRoot project_root); EPrint LBlank]
            ++ evs
            ++ [EPrint LRule; EPrint (summary (List.length (filter is_generated os)))]
            ++ warnings project_root (st_fs st2) KEY_LOCATIONS
            ++ [EPrint (verdict (forallb (both_present project_root (st_fs st2))
                                   KEY_LOCATIONS))]).
  split; [exact Hattempts |]. split; [exact Hlen |].
  split; [| split].
  - cbn [st_trace after]. rewrite Hp'. unfold st1. cbn [st_trace after].
    now rewrite <- !app_assoc.
  - unfold report. rewrite !flat_map_app, Hentries, warnings_no_entry.
    cbn [flat_map]. rewrite entry_of_summary, entry_of_verdict.
    cbn [entry_of app]. rewrite app_nil_r. apply pair_up_combine.
  - rewrite !in_app_iff. right. right. left. right. now left.
Qed.

(** X10. When [main] returns, its report has exactly one entry for each
    configured location, in the configured order, and the entries are
    the outcomes of the attempts made one after the other from the
    initial world to the final one: no location is left out or reported
    twice, whatever happened at the others. *)
Theorem main_reports_every_location (argv : list string) (script_dir : path)
  (st st' : state E) (code : Z) :
  main openssl bytes_decode argv script_dir st = (Ok code, st') ->
  exists os evs,
    attempts openssl bytes_decode (find_project_root (st_fs st) script_dir)
      (existsb (String.eqb "--force") argv) KEY_LOCATIONS (world st) os (world st')
    /\ st_trace st' = st_trace st ++ evs
    /\ report evs = combine KEY_LOCATIONS os
    /\ map fst (report evs) = KEY_LOCATIONS.
Proof.
  intros Hmain.
  destruct (main_returns _ _ _ _ _ Hmain) as (os & evs & Ha & Hlen & Htrace & Hreport & _).
  exists os, evs. repeat split; try assumption.
  rewrite Hreport. now apply map_fst_combine.
Qed.

(** X11. When [main] returns, the summary line it prints carries the
    number of locations that the report shows as [Generated]; when there
    is none it is the line "No new keys generated (use --force to
    regenerate)", also when every location has failed. *)
Theorem summary_counts_generated (argv : list string) (script_dir : path)
  (st st' : state E) (code : Z) :
  main openssl bytes_decode argv script_dir st = (Ok code, st') ->
  exists evs,
    st_trace st' = st_trace st ++ evs
    /\ let generated :=
         List.length (filter (fun lo => is_generated (snd lo)) (report evs)) in
       In (EPrint (summary generated)) evs
       /\ (generated = 0 -> In (EPrint LSummaryNone) evs).
Proof.
  intros Hmain.
  destruct (main_returns _ _ _ _ _ Hmain)
    as (os & evs & _ & Hlen & Htrace & Hreport & Hsummary).
  exists evs. split; [assumption |]. cbv zeta.
  rewrite Hreport, count_generated_combine by assumption.
  split; [assumption |]. intros Hzero. now rewrite Hzero in Hsummary.
Qed.

(** X12. The exit code does not look at the outcomes: if every
    configured location has both files at the start and no invocation of
    the tool makes one of them disappear, a returning run ends with exit
    code 0, even when it was forced and every location is reported as
    [Failed]. *)
Theorem exit_code_ignores_outcomes (argv : list string) (script_dir : path)
  (st st' : state E) (code : Z) :
  let project_root := find_project_root (st_fs st) script_dir in
  (forall location, In location KEY_LOCATIONS ->
     both_present project_root (st_fs st) location = true) ->
  (forall args e t location,
     In location KEY_LOCATIONS ->
     both_present project_root t location = true ->
     both_present project_root (snd (world_after (openssl args e t))) location = true) ->
  main openssl bytes_decode argv script_dir st = (Ok code, st') ->
  code = 0%Z.
Proof.
  intros project_root Hstart Htool Hmain.
  pose proof (main_invariant
                (fun t => forall location, In location KEY_LOCATIONS ->
                            both_present project_root t location = true)
                project_root) as Hinv.
  specialize (Hinv ltac:(
    intros q t t1 Hmkdir Ht location Hin;
    specialize (Ht location Hin); unfold both_present in *;
    apply andb_prop in Ht as [H1 H2];
    now rewrite (mkdir_p_keeps_exists q _ t t1 Hmkdir H1),
                (mkdir_p_keeps_exists q _ t t1 Hmkdir H2))).
  specialize (Hinv ltac:(intros args e t _ Ht location Hin; apply Htool; auto)).
  specialize (Hinv argv script_dir st eq_refl Hstart).
  rewrite Hmain in Hinv. cbn [snd] in Hinv.
  rewrite main_eq in Hmain. cbv zeta in Hmain.
  destruct (provision _ _ _ _ _ _ _) as [[success_count | x] st2]; [| discriminate].
  assert (Hcode :
    code = exit_code (forallb (both_present project_root (st_fs st2)) KEY_LOCATIONS)
    /\ st_fs st' = st_fs st2) by (injection Hmain as <- <-; split; reflexivity).
  destruct Hcode as [-> Hfs]. rewrite Hfs in Hinv.
  assert (Hall : forallb (both_present project_root (st_fs st2)) KEY_LOCATIONS = true)
    by (apply forallb_forall; exact Hinv).
  now rewrite Hall.
Qed.

(** X13. Nothing is undone after a failure: once [mkdir] has succeeded,
    the key directory is still a directory when [generate_keys] ends,
    whether it returns [True], returns [False] or raises, unless the
    tool itself has removed it. *)
Theorem generate_keys_leaves_directory (output_dir : path) (force : bool)
  (st : state E) (t1 : node) :
  skips output_dir force (st_fs st) = false ->
  FS.mkdir_p output_dir (st_fs st) = inl t1 ->
  (forall args e t,
     FS.is_dir output_dir t = true ->
     FS.is_dir output_dir (snd (world_after (openssl args e t))) = true) ->
  FS.is_dir output_dir
    (st_fs (snd (generate_keys openssl bytes_decode output_dir force st))) = true.
Proof.
  intros Hskip Hmkdir Htool.
  destruct (generate_keys_state output_dir force st) as (evs & -> & _).
  cbn [st_fs after]. unfold last_world, world. cbn [fst snd].
  rewrite Hskip, Hmkdir. cbv zeta.
  pose proof (mkdir_p_is_dir _ _ _ Hmkdir) as Hdir.
  destruct (raised _ _); auto.
Qed.

(** X14. Running twice: after a run that ended with exit code 0, a run
    without [--force] that finds the same project root skips every
    location, runs no process and leaves the world as it is, whatever
    the first run did (generated, skipped or forced). *)
Theorem rerun_skips_every_location (argv0 argv : list string) (script_dir : path)
  (st0 st1 : state E) :
  main openssl bytes_decode argv0 script_dir st0 = (Ok 0%Z, st1) ->
  find_project_root (st_fs st1) script_dir = find_project_root (st_fs st0) script_dir ->
  existsb (String.eqb "--force") argv = false ->
  exists evs,
    main openssl bytes_decode argv script_dir st1 = (Ok 0%Z, after evs (world st1) st1)
    /\ report evs = map (fun location => (location, Skipped)) KEY_LOCATIONS
    /\ runs evs = [].
Proof.
  intros Hfirst Hroot Hforce.
  exists (skipped_run (find_project_root (st_fs st1) script_dir)).
  split; [| split; reflexivity].
  exact (second_run_skips E openssl bytes_decode argv0 argv script_dir st0 st1
           Hfirst Hroot Hforce).
Qed.

End WorkflowEffects.

(** * The properties on concrete runs *)

Import Doubles.

Lemma no_marker_below_root (d : path) :
  on_walk d script_dir -> FS.exists_ (d // "pom.xml") fs_root_marker = false.
Proof.
  intros [Hd [q Hq]].
  destruct d as [| a [| b [| c [| x d']]]]; try congruence;
    injection Hq as <-; intros; subst; reflexivity.
Qed.

Lemma find_project_root_terminates_witness :
  exists w,
    walk_up 3 fs_root_marker script_dir = Some w
    /\ w = Exhausted
    /\ find_project_root fs_root_marker script_dir = script_dir.
Proof.
  destruct (find_project_root_terminates fs_root_marker script_dir 3)
    as (w & Hw & _ & Hiff & Hback).
  - simpl. lia.
  - exists w. split; [exact Hw |]. split.
    + apply Hiff. exact no_marker_below_root.
    + apply Hback. exact no_marker_below_root.
Defined.

Lemma root_marker_is_ignored_witness :
  FS.exists_ ([] // "pom.xml") fs_root_marker = true
  /\ walk_up 0 fs_root_marker [] = Some Exhausted
  /\ find_project_root fs_root_marker script_dir = script_dir.
Proof.
  split; [reflexivity |].
  apply (root_marker_is_ignored fs_root_marker script_dir 0).
  - reflexivity.
  - exact no_marker_below_root.
Defined.

Lemma both_present_provisioned (location : string) :
  In location KEY_LOCATIONS ->
  both_present (find_project_root fs_provisioned script_dir) fs_provisioned location = true.
Proof. intros [<- | [<- | []]]; reflexivity. Qed.

Lemma creatable_fresh :
  creatable (find_project_root fs_fresh script_dir) fs_fresh.
Proof. intros location [<- | [<- | []]]; eexists; vm_compute; reflexivity. Qed.

Lemma exit_code_contract_witness :
  exists st',
    main openssl_ok decode_ascii argv_plain script_dir (start tt fs_fresh) = (Ok 0%Z, st')
    /\ forall location, In location KEY_LOCATIONS ->
         FS.exists_ (["opt"; "stormstack"] // location // PRIVATE_KEY_NAME) (st_fs st') = true
         /\ FS.exists_ (["opt"; "stormstack"] // location // PUBLIC_KEY_NAME) (st_fs st') = true.
Proof.
  exists (snd (main openssl_ok decode_ascii argv_plain script_dir (start tt fs_fresh))).
  assert (Hmain :
    main openssl_ok decode_ascii argv_plain script_dir (start tt fs_fresh)
    = (Ok 0%Z, snd (main openssl_ok decode_ascii argv_plain script_dir (start tt fs_fresh))))
    by (vm_compute; reflexivity).
  split; [exact Hmain |].
  destruct (exit_code_contract unit openssl_ok decode_ascii _ _ _ _ _ Hmain)
    as (_ & [Hall _] & _).
  exact (Hall eq_refl).
Defined.

Lemma verification_independence_witness :
  exists st',
    main openssl_lying decode_ascii argv_plain script_dir (start tt fs_fresh) = (Ok 1%Z, st')
    /\ In (main_location, Generated) (report (st_trace st'))
    /\ In (EPrint (LWarnMissing main_location)) (st_trace st')
    /\ In (EPrint LSomeMissing) (st_trace st').
Proof.
  exists (snd (main openssl_lying decode_ascii argv_plain script_dir (start tt fs_fresh))).
  assert (Hmain :
    main openssl_lying decode_ascii argv_plain script_dir (start tt fs_fresh)
    = (Ok 1%Z, snd (main openssl_lying decode_ascii argv_plain script_dir (start tt fs_fresh))))
    by (vm_compute; reflexivity).
  split; [exact Hmain |].
  split; [vm_compute; left; reflexivity |].
  apply (verification_independence unit openssl_lying decode_ascii _ _ _ _ _
           main_location Hmain).
  - left. reflexivity.
  - vm_compute. reflexivity.
Defined.

Lemma idempotence_witness :
  exists st1 st2,
    main openssl_ok decode_ascii argv_plain script_dir (start tt fs_provisioned)
      = (Ok 0%Z, st1)
    /\ main openssl_ok decode_ascii argv_plain script_dir st1 = (Ok 0%Z, st2)
    /\ st_fs st1 = fs_provisioned
    /\ st_fs st2 = fs_provisioned
    /\ report (st_trace st1) = [(main_location, Skipped); (test_location, Skipped)].
Proof.
  destruct (idempotence unit openssl_ok decode_ascii argv_plain script_dir
              (start tt fs_provisioned) eq_refl both_present_provisioned)
    as (evs & st1 & st2 & H1 & Hst1 & H2 & _ & Hfs1 & Hfs2 & Hreport & _).
  exists st1, st2. repeat split; try assumption.
  subst st1. exact Hreport.
Defined.

Lemma skip_path_frame_witness :
  exists st',
    generate_keys openssl_ok decode_ascii main_dir false (start tt fs_provisioned)
      = (Ok false, st')
    /\ st_fs st' = fs_provisioned
    /\ st_trace st' = [EPrint (LKeysExist main_dir)].
Proof.
  destruct (skip_path_frame unit openssl_ok decode_ascii main_dir
              (start tt fs_provisioned) eq_refl eq_refl)
    as (st' & Hgk & Hfs & _ & Htrace & _).
  exists st'. repeat split; assumption.
Defined.

Lemma force_overwrite_witness :
  exists st' evs,
    generate_keys openssl_ok decode_ascii main_dir true (start tt fs_provisioned)
      = (Ok true, st')
    /\ st_trace st' = evs
    /\ In (ERun (genpkey_cmd (main_dir // PRIVATE_KEY_NAME))) evs
    /\ In (ERun (pubout_cmd (main_dir // PRIVATE_KEY_NAME) (main_dir // PUBLIC_KEY_NAME))) evs.
Proof.
  destruct (force_overwrite unit openssl_ok decode_ascii main_dir
              (start tt fs_provisioned) eq_refl eq_refl)
    as (r & st' & evs & Hgk & Htrace & Hprivate & Hpublic & Hgenerated).
  destruct (Hgenerated eq_refl eq_refl) as (-> & _).
  exists st', evs. repeat split; auto.
Defined.

(** The tool fails on its first invocation only: the first location is
    [Failed], the second is [Generated]. *)
Lemma attempts_flaky :
  exists w',
    attempts openssl_flaky decode_ascii (find_project_root fs_fresh script_dir) false
      KEY_LOCATIONS (world (start 1 fs_fresh)) [Failed; Generated] w'.
Proof.
  eexists. eapply attempts_cons.
  - eapply attempt_failed_private.
    + reflexivity.
    + vm_compute. reflexivity.
    + vm_compute. reflexivity.
    + right. discriminate.
  - eapply attempts_cons; [| apply attempts_nil].
    eapply attempt_generated.
    + reflexivity.
    + vm_compute. reflexivity.
    + vm_compute. reflexivity.
    + vm_compute. reflexivity.
Defined.

Lemma partial_failure_isolation_witness :
  exists code st',
    main openssl_flaky decode_ascii argv_plain script_dir (start 1 fs_fresh) = (Ok code, st')
    /\ In (main_location, Failed) (report (st_trace st'))
    /\ In (test_location, Generated) (report (st_trace st'))
    /\ In (ERun (genpkey_cmd (["opt"; "stormstack"] // test_location // PRIVATE_KEY_NAME)))
         (st_trace st').
Proof.
  destruct attempts_flaky as [w' Hattempts].
  destruct (partial_failure_isolation nat openssl_flaky decode_ascii argv_plain script_dir
              (start 1 fs_fresh) [Failed; Generated] w' main_location test_location
              Hattempts)
    as (code & evs & Hmain & HA & HB & _ & Hrun).
  - left. reflexivity.
  - right. left. reflexivity.
  - exists code, (after evs w' (start 1 fs_fresh)). auto.
Defined.

(** The tool cannot be executed when it is first called, for the first
    location, and works from then on: it fails for the first location
    and would succeed for the second, but the [PermissionError] is not
    one of the two exceptions that [generate_keys] catches, so it leaves
    [main] and the second location is never attempted. *)
Lemma uncaught_failure_stops_other_locations :
  let r := main openssl_denied decode_ascii argv_plain script_dir (start 1 fs_fresh) in
  fst r = Raise PermissionError
  /\ runs (st_trace (snd r)) = [genpkey_cmd (main_dir // PRIVATE_KEY_NAME)]
  /\ report (st_trace (snd r)) = []
  /\ (exists w', attempt openssl_denied decode_ascii test_dir false (world (snd r))
                    Generated w')
  /\ ~ (exists code st',
          main openssl_denied decode_ascii argv_plain script_dir (start 1 fs_fresh)
            = (Ok code, st')
          /\ In (main_location, Failed) (report (st_trace st'))
          /\ In (test_location, Generated) (report (st_trace st'))).
Proof.
  assert (Hraise :
    fst (main openssl_denied decode_ascii argv_plain script_dir (start 1 fs_fresh))
    = Raise PermissionError) by (vm_compute; reflexivity).
  cbv zeta. split; [exact Hraise |].
  split; [vm_compute; reflexivity |].
  split; [vm_compute; reflexivity |].
  split.
  - eexists. eapply attempt_generated.
    + vm_compute. reflexivity.
    + vm_compute. reflexivity.
    + vm_compute. reflexivity.
    + vm_compute. reflexivity.
  - intros (code & st' & Hmain & _). rewrite Hmain in Hraise. discriminate Hraise.
Qed.

(** The same with a tool that exits with a non-zero status and an
    undecodable standard error on its first call: the
    [CalledProcessError] is caught and the handler raises
    [UnicodeDecodeError] when it decodes the message. *)
Example undecodable_failure_stops_other_locations :
  let r := main openssl_garbled decode_ascii argv_plain script_dir (start 1 fs_fresh) in
  fst r = Raise UnicodeDecodeError
  /\ runs (st_trace (snd r)) = [genpkey_cmd (main_dir // PRIVATE_KEY_NAME)].
Proof. vm_compute. split; reflexivity. Qed.



(** The tool killed with undecodable bytes on its standard error: the
    [CalledProcessError] is caught, and decoding the message inside the
    handler raises [UnicodeDecodeError], which is not. *)
Example uncaught_decode_failure :
  fst (main openssl_dying decode_ascii argv_plain script_dir (start 2 fs_fresh))
    = Raise UnicodeDecodeError.
Proof. vm_compute. reflexivity. Qed.

(** The two scenarios of the specification, on the real locations. *)
Example scenario_tool_works :
  let r := main openssl_ok decode_ascii argv_plain script_dir (start tt fs_fresh) in
  fst r = Ok 0%Z
  /\ report (st_trace (snd r)) = [(main_location, Generated); (test_location, Generated)].
Proof. vm_compute. split; reflexivity. Qed.

Example scenario_tool_unavailable :
  let r := main openssl_missing decode_ascii argv_plain script_dir (start tt fs_fresh) in
  fst r = Ok 1%Z
  /\ report (st_trace (snd r)) = [(main_location, Failed); (test_location, Failed)]
  /\ In (EPrint (LWarnMissing main_location)) (st_trace (snd r))
  /\ In (EPrint (LWarnMissing test_location)) (st_trace (snd r)).
Proof.
  vm_compute. repeat split; repeat ((left; reflexivity) || right).
Qed.

(** The working stand-in writes one regular file, at the place named
    after [-out], and changes nothing else. *)
Lemma write_file_keeps_unblocked (q : path) (content : list byte) :
  forall (p : path) (t t' : node),
    FS.write_file q content t = Some t' ->
    List.length p < List.length q ->
    FS.unblocked p t = true -> FS.unblocked p t' = true.
Proof.
  induction q as [| c q IH]; intros p t t' Hwrite Hlen Hp.
  - destruct t; discriminate.
  - destruct t as [content' | es]; [destruct q; discriminate |].
    destruct q as [| c' q].
    + simpl in Hwrite.
      destruct p; simpl in Hlen; [| lia].
      destruct (FS.assoc c es) as [[content' | es'] |]; try discriminate;
        injection Hwrite as <-; reflexivity.
    + change (FS.write_file (c :: c' :: q) content (FS.Dir es))
        with (match FS.assoc c es with
              | Some m =>
                  match FS.write_file (c' :: q) content m with
                  | Some m' => Some (FS.Dir (FS.set_entry c m' es))
                  | None => None
                  end
              | None => None
              end) in Hwrite.
      destruct (FS.assoc c es) as [m |] eqn:Hc; [| discriminate].
      destruct (FS.write_file (c' :: q) content m) as [m' |] eqn:Hm; [| discriminate].
      injection Hwrite as <-. destruct p as [| a p]; [reflexivity |].
      cbn [FS.unblocked] in *. rewrite assoc_set_entry.
      destruct (String.eqb c a) eqn:Hca; [| exact Hp].
      apply String.eqb_eq in Hca as <-. rewrite Hc in Hp.
      apply (IH p m m' Hm); [simpl in Hlen |- *; lia | exact Hp].
Qed.

Lemma write_file_keeps_other (r : path) (a b : string) (p q : path)
  (content : list byte) :
  a <> b ->
  forall t t' : node,
    FS.write_file (r ++ b :: q) content t = Some t' ->
    FS.lookup (r ++ a :: p) t' = FS.lookup (r ++ a :: p) t.
Proof.
  intros Hab. induction r as [| c r IH]; intros t t' Hwrite.
  - destruct t as [content' | es]; [destruct q; discriminate |].
    assert (Hother : forall n, FS.assoc a (FS.set_entry b n es) = FS.assoc a es).
    { intros n. rewrite assoc_set_entry.
      destruct (String.eqb b a) eqn:Hba; [| reflexivity].
      apply String.eqb_eq in Hba. congruence. }
    destruct q as [| c' q].
    + simpl in Hwrite.
      destruct (FS.assoc b es) as [[content' | es'] |]; try discriminate;
        injection Hwrite as <-; simpl; now rewrite Hother.
    + change (FS.write_file ([] ++ b :: c' :: q) content (FS.Dir es))
        with (match FS.assoc b es with
              | Some m =>
                  match FS.write_file (c' :: q) content m with
                  | Some m' => Some (FS.Dir (FS.set_entry b m' es))
                  | None => None
                  end
              | None => None
              end) in Hwrite.
      destruct (FS.assoc b es) as [m |]; [| discriminate].
      destruct (FS.write_file (c' :: q) content m) as [m' |]; [| discriminate].
      injection Hwrite as <-. simpl. now rewrite Hother.
  - destruct t as [content' | es]; [destruct r; discriminate |].
    assert (Hstep :
      FS.write_file ((c :: r) ++ b :: q) content (FS.Dir es)
      = match FS.assoc c es with
        | Some m =>
            match FS.write_file (r ++ b :: q) content m with
            | Some m' => Some (FS.Dir (FS.set_entry c m' es))
            | None => None
            end
        | None => None
        end) by (destruct r; reflexivity).
    rewrite Hstep in Hwrite.
    destruct (FS.assoc c es) as [m |] eqn:Hc; [| discriminate].
    destruct (FS.write_file (r ++ b :: q) content m) as [m' |] eqn:Hm; [| discriminate].
    injection Hwrite as <-. simpl. rewrite assoc_set_entry, String.eqb_refl, Hc.
    exact (IH m m' Hm).
Qed.

Lemma openssl_ok_out (args : list string) (q : path) :
  arg_after "-out" args = Some (Path.str q) ->
  Path.parts (Path.str q) = q ->
  forall (e : unit) (t : node),
    openssl_ok args e t =
    match FS.write_file q pem t with
    | Some t' => Exited 0 [] e t'
    | None => Exited 1 [x65; x72; x72] e t
    end.
Proof. intros Hout Hparts e t. unfold openssl_ok. now rewrite Hout, Hparts. Qed.

(** On the command lines of the key directories the working stand-in
    writes a key file inside a key directory. *)
Lemma openssl_ok_key_cmd (args : list string) :
  key_cmd ["opt"; "stormstack"] KEY_LOCATIONS args ->
  exists (location name : string),
    In location KEY_LOCATIONS
    /\ forall (e : unit) (t : node),
         openssl_ok args e t =
         match FS.write_file ((["opt"; "stormstack"] // location) ++ [name]) pem t with
         | Some t' => Exited 0 [] e t'
         | None => Exited 1 [x65; x72; x72] e t
         end.
Proof.
  intros (location & Hin & Hargs). exists location.
  destruct Hin as [<- | [<- | []]]; destruct Hargs as [-> | ->];
    (exists "privateKey.pem" + exists "publicKey.pem");
    (split; [simpl; auto | apply openssl_ok_out; reflexivity]).
Qed.

Lemma openssl_ok_recovered (args : list string) (e : unit) (t : node) (x : exn) :
  raised args (openssl_ok args e t) = Some x -> recovered decode_ascii x.
Proof.
  unfold openssl_ok.
  destruct (arg_after "-out" args) as [out |];
    [destruct (FS.write_file (Path.parts out) pem t) |];
    simpl; intros [= <-]; right; discriminate.
Qed.

Lemma openssl_ok_keeps_creatable (args : list string) (e : unit) (t : node) :
  key_cmd ["opt"; "stormstack"] KEY_LOCATIONS args ->
  creatable ["opt"; "stormstack"] t ->
  creatable ["opt"; "stormstack"] (snd (world_after (openssl_ok args e t))).
Proof.
  intros Hkey Hcreatable.
  destruct (openssl_ok_key_cmd args Hkey) as (location & name & Hin & ->).
  destruct (FS.write_file _ pem t) as [t' |] eqn:Hwrite; [| exact Hcreatable].
  cbn [world_after snd]. rewrite creatable_unblocked in *.
  intros l Hl. apply (write_file_keeps_unblocked _ _ _ _ _ Hwrite); [| now apply Hcreatable].
  destruct Hin as [<- | [<- | []]]; destruct Hl as [<- | [<- | []]];
    vm_compute; lia.
Qed.


(** ** Further properties on concrete runs *)

Lemma markers_unchanged_by_keys (d : path) :
  on_walk d script_dir ->
  FS.exists_ (d // "pom.xml") fs_provisioned = FS.exists_ (d // "pom.xml") fs_fresh.
Proof.
  intros [Hd [q Hq]].
  destruct d as [| a [| b [| c [| x d']]]]; try congruence;
    injection Hq as <-; intros; subst; reflexivity.
Qed.

Lemma find_project_root_nearest_witness :
  find_project_root fs_fresh script_dir = ["opt"; "stormstack"].
Proof.
  apply (find_project_root_nearest fs_fresh script_dir ["opt"; "stormstack"]).
  - split; [discriminate | exists ["scripts"]; reflexivity].
  - reflexivity.
  - intros d' [Hd [q Hq]] Hlen.
    destruct d' as [| a [| b [| c [| x d'']]]]; simpl in Hlen; try lia;
      try congruence;
      injection Hq as <-; intros; subst; first [reflexivity | discriminate].
Defined.

Lemma find_project_root_depends_on_markers_witness :
  find_project_root fs_provisioned script_dir = find_project_root fs_fresh script_dir.
Proof.
  apply (find_project_root_depends_on_markers fs_fresh fs_provisioned script_dir).
  exact markers_unchanged_by_keys.
Defined.

Lemma generate_keys_returns_witness :
  exists st',
    generate_keys openssl_ok decode_ascii main_dir false (start tt fs_fresh) = (Ok true, st')
    /\ attempt openssl_ok decode_ascii main_dir false (world (start tt fs_fresh))
         Generated (world st').
Proof.
  exists (snd (generate_keys openssl_ok decode_ascii main_dir false (start tt fs_fresh))).
  assert (Hgk :
    generate_keys openssl_ok decode_ascii main_dir false (start tt fs_fresh)
    = (Ok true,
       snd (generate_keys openssl_ok decode_ascii main_dir false (start tt fs_fresh))))
    by (vm_compute; reflexivity).
  split; [exact Hgk |].
  destruct (generate_keys_returns unit openssl_ok decode_ascii _ _ _ _ _ Hgk)
    as (o & evs & Hattempt & Ho & _).
  destruct o; try discriminate Ho. exact Hattempt.
Defined.

Lemma generate_keys_lets_through_witness :
  fst (generate_keys openssl_garbled decode_ascii main_dir false (start 1 fs_fresh))
    = Raise UnicodeDecodeError
  /\ fst (generate_keys openssl_denied decode_ascii main_dir false (start 1 fs_fresh))
    = Raise PermissionError
  /\ fst (generate_keys openssl_ok decode_ascii main_dir false (start tt fs_blocked))
    = Raise NotADirectoryError.
Proof.
  split; [| split].
  - apply generate_keys_lets_through; [reflexivity |].
    unfold lets_through.
    change (FS.mkdir_p main_dir (snd (world (start 1 fs_fresh))))
      with (FS.mkdir_p main_dir fs_fresh).
    destruct (FS.mkdir_p main_dir fs_fresh) as [t1 | x] eqn:Hmkdir;
      [| vm_compute in Hmkdir; discriminate Hmkdir].
    cbv zeta.
    exists (CalledProcessError 1 (genpkey_cmd (main_dir // PRIVATE_KEY_NAME)) [xff]).
    split; [left; reflexivity |].
    right. split; [reflexivity |].
    do 3 eexists. split; [reflexivity |]. split; [discriminate | reflexivity].
  - apply generate_keys_lets_through; [reflexivity |].
    unfold lets_through.
    change (FS.mkdir_p main_dir (snd (world (start 1 fs_fresh))))
      with (FS.mkdir_p main_dir fs_fresh).
    destruct (FS.mkdir_p main_dir fs_fresh) as [t1 | x] eqn:Hmkdir;
      [| vm_compute in Hmkdir; discriminate Hmkdir].
    cbv zeta. exists PermissionError.
    split; [left; reflexivity |]. left. split; [exact I | reflexivity].
  - apply generate_keys_lets_through; [reflexivity |].
    vm_compute. reflexivity.
Defined.

(** The working stand-in, run on the command lines of the key
    directories, leaves the marker file alone. *)
Lemma openssl_ok_keeps_marker (args : list string) (e : unit) (t : node) :
  key_cmd ["opt"; "stormstack"] KEY_LOCATIONS args ->
  FS.lookup ["opt"; "stormstack"; "pom.xml"] t = Some (FS.File []) ->
  FS.lookup ["opt"; "stormstack"; "pom.xml"] (snd (world_after (openssl_ok args e t)))
    = Some (FS.File []).
Proof.
  intros Hkey Hmarker.
  destruct (openssl_ok_key_cmd args Hkey) as (location & name & Hin & ->).
  destruct (FS.write_file _ pem t) as [t' |] eqn:Hwrite; [| exact Hmarker].
  cbn [world_after snd]. rewrite <- Hmarker.
  destruct Hin as [<- | [<- | []]].
  - change ((["opt"; "stormstack"] // "thunder/engine/provider/src/main/resources")
              ++ [name])
      with (["opt"; "stormstack"]
              ++ "thunder" :: ["engine"; "provider"; "src"; "main"; "resources"; name])
      in Hwrite.
    apply (write_file_keeps_other ["opt"; "stormstack"] "pom.xml" "thunder" [] _ pem
             ltac:(discriminate) t t' Hwrite).
  - change ((["opt"; "stormstack"] // "thunder/engine/provider/src/test/resources")
              ++ [name])
      with (["opt"; "stormstack"]
              ++ "thunder" :: ["engine"; "provider"; "src"; "test"; "resources"; name])
      in Hwrite.
    apply (write_file_keeps_other ["opt"; "stormstack"] "pom.xml" "thunder" [] _ pem
             ltac:(discriminate) t t' Hwrite).
Qed.

Lemma main_keeps_files_witness :
  report (st_trace (snd (main openssl_ok decode_ascii argv_force script_dir
                           (start tt fs_provisioned))))
    = [(main_location, Generated); (test_location, Generated)]
  /\ FS.lookup ["opt"; "stormstack"; "pom.xml"]
       (st_fs (snd (main openssl_ok decode_ascii argv_force script_dir
                      (start tt fs_provisioned))))
     = Some (FS.File []).
Proof.
  split; [vm_compute; reflexivity |].
  apply (main_keeps_files unit openssl_ok decode_ascii).
  - intros args e t. apply openssl_ok_keeps_marker.
  - reflexivity.
Defined.

Lemma flagged_are_the_missing_witness :
  exists st',
    main openssl_missing decode_ascii argv_plain script_dir (start tt fs_fresh)
      = (Ok 1%Z, st')
    /\ flagged (st_trace st') = [main_location; test_location].
Proof.
  exists (snd (main openssl_missing decode_ascii argv_plain script_dir (start tt fs_fresh))).
  assert (Hmain :
    main openssl_missing decode_ascii argv_plain script_dir (start tt fs_fresh)
    = (Ok 1%Z,
       snd (main openssl_missing decode_ascii argv_plain script_dir (start tt fs_fresh))))
    by (vm_compute; reflexivity).
  split; [exact Hmain |].
  destruct (flagged_are_the_missing unit openssl_missing decode_ascii _ _ _ _ _ Hmain)
    as (evs & Htrace & Hflagged).
  simpl app in Htrace. rewrite Htrace, Hflagged. vm_compute. reflexivity.
Defined.

Lemma main_reports_every_location_witness :
  exists code st',
    main openssl_flaky decode_ascii argv_plain script_dir (start 1 fs_fresh)
      = (Ok code, st')
    /\ map fst (report (st_trace st')) = KEY_LOCATIONS.
Proof.
  exists 1%Z,
    (snd (main openssl_flaky decode_ascii argv_plain script_dir (start 1 fs_fresh))).
  assert (Hmain :
    main openssl_flaky decode_ascii argv_plain script_dir (start 1 fs_fresh)
    = (Ok 1%Z,
       snd (main openssl_flaky decode_ascii argv_plain script_dir (start 1 fs_fresh))))
    by (vm_compute; reflexivity).
  split; [exact Hmain |].
  destruct (main_reports_every_location nat openssl_flaky decode_ascii _ _ _ _ _ Hmain)
    as (os & evs & _ & Htrace & _ & Hmap).
  simpl app in Htrace. rewrite Htrace. exact Hmap.
Defined.

Lemma summary_counts_generated_witness :
  exists st',
    main openssl_missing decode_ascii argv_plain script_dir (start tt fs_fresh)
      = (Ok 1%Z, st')
    /\ report (st_trace st') = [(main_location, Failed); (test_location, Failed)]
    /\ In (EPrint LSummaryNone) (st_trace st').
Proof.
  exists (snd (main openssl_missing decode_ascii argv_plain script_dir (start tt fs_fresh))).
  assert (Hmain :
    main openssl_missing decode_ascii argv_plain script_dir (start tt fs_fresh)
    = (Ok 1%Z,
       snd (main openssl_missing decode_ascii argv_plain script_dir (start tt fs_fresh))))
    by (vm_compute; reflexivity).
  split; [exact Hmain |]. split; [vm_compute; reflexivity |].
  destruct (summary_counts_generated unit openssl_missing decode_ascii _ _ _ _ _ Hmain)
    as (evs & Htrace & _ & Hnone).
  simpl app in Htrace. rewrite Htrace. apply Hnone.
  rewrite <- Htrace. vm_compute. reflexivity.
Defined.

Lemma exit_code_ignores_outcomes_witness :
  exists code st',
    main openssl_missing decode_ascii argv_force script_dir (start tt fs_provisioned)
      = (Ok code, st')
    /\ report (st_trace st') = [(main_location, Failed); (test_location, Failed)]
    /\ code = 0%Z.
Proof.
  exists 0%Z,
    (snd (main openssl_missing decode_ascii argv_force script_dir
            (start tt fs_provisioned))).
  assert (Hmain :
    main openssl_missing decode_ascii argv_force script_dir (start tt fs_provisioned)
    = (Ok 0%Z,
       snd (main openssl_missing decode_ascii argv_force script_dir
              (start tt fs_provisioned))))
    by (vm_compute; reflexivity).
  split; [exact Hmain |]. split; [vm_compute; reflexivity |].
  eapply (exit_code_ignores_outcomes unit openssl_missing decode_ascii argv_force
            script_dir (start tt fs_provisioned)).
  - exact both_present_provisioned.
  - intros args e t location _ H. exact H.
  - exact Hmain.
Defined.

Lemma generate_keys_leaves_directory_witness :
  fst (generate_keys openssl_missing decode_ascii main_dir false (start tt fs_fresh))
    = Ok false
  /\ FS.is_dir main_dir fs_fresh = false
  /\ FS.is_dir main_dir
       (st_fs (snd (generate_keys openssl_missing decode_ascii main_dir false
                      (start tt fs_fresh)))) = true.
Proof.
  split; [vm_compute; reflexivity |]. split; [reflexivity |].
  eapply (generate_keys_leaves_directory unit openssl_missing decode_ascii main_dir false
            (start tt fs_fresh)).
  - reflexivity.
  - vm_compute. reflexivity.
  - intros args e t H. exact H.
Defined.

Lemma rerun_skips_every_location_witness :
  exists st1 st2,
    main openssl_ok decode_ascii argv_plain script_dir (start tt fs_fresh) = (Ok 0%Z, st1)
    /\ report (st_trace st1) = [(main_location, Generated); (test_location, Generated)]
    /\ main openssl_ok decode_ascii argv_plain script_dir st1 = (Ok 0%Z, st2)
    /\ world st2 = world st1.
Proof.
  exists (snd (main openssl_ok decode_ascii argv_plain script_dir (start tt fs_fresh))).
  assert (Hfirst :
    main openssl_ok decode_ascii argv_plain script_dir (start tt fs_fresh)
    = (Ok 0%Z,
       snd (main openssl_ok decode_ascii argv_plain script_dir (start tt fs_fresh))))
    by (vm_compute; reflexivity).
  destruct (rerun_skips_every_location unit openssl_ok decode_ascii argv_plain argv_plain
              script_dir _ _ Hfirst)
    as (evs & Hsecond & _).
  - vm_compute. reflexivity.
  - reflexivity.
  - eexists. split; [exact Hfirst |]. split; [vm_compute; reflexivity |].
    split; [exact Hsecond |]. apply world_of_after.
Defined.
